(** * go-valid: the tag parser and the validation engine

    A shallow embedding of package [validate] (Ramzec/go-valid) and the
    properties of its functions: [decodeTagFields], [Validate] with
    [setDefaultValue], and the method [Error].

    The package exists in two revisions.  The later one (constraints
    [min], [max], [minLen], [maxLen], [default], [oneof]) is embedded at
    the top level; the earlier one (no constraints at all) is embedded in
    module [Rev1].  [decodeTagFields] is textually the same in both.

    Conventions of the embedding:
    - a Go [string] is a Rocq [string] (a sequence of bytes), so [len(s)]
      is [String.length s];
    - [int], [int64] and [uint64] are [Z]; the platform is a 64-bit one
      ([int] has 64 bits), so that [SetInt] and [SetUint] store what
      [ParseInt] and [ParseUint] return, and the one conversion that can
      wrap, [int(reqLen)], is written out with [to_int];
    - a [panic] is a result of its own, with the message as a constructor
      of [PanicMsg];
    - the struct behind [outputStruct] is the list of its fields in
      declaration order, each a [StructField] (the static part) with the
      [Value] stored in it; [Validate] returns the list after the call
      together with the way the call ends, since the Go code writes the
      fields in place.  The fields are exported ones, which is what
      [reflect] needs to hand out or set a field, and
      [FieldByName(structField.Name)] is the field the loop is at;
    - a map is a [gmap]; the map [seen], of which only the keys are used,
      is a [gset];
    - what the package takes from the Go runtime and does not define
      ([json.Unmarshal], [float64] with its order, [strconv.ParseFloat], the
      order in which [range] walks a map) is a [Runtime] instance, and the
      properties hold for every instance. *)

From Stdlib Require Import ZArith Ascii String Lia DecimalString.
From stdpp Require Import gmap strings list fin_maps.

Local Open Scope string_scope.
Local Open Scope Z_scope.

(** ** Package [strings] *)

(** [strings.Split(s, sep)] for a separator of one byte. *)
Fixpoint Split (s : string) (sep : ascii) : list string :=
  match s with
  | EmptyString => [EmptyString]
  | String c s' =>
      if Ascii.eqb c sep then EmptyString :: Split s' sep
      else match Split s' sep with
           | [] => [String c EmptyString]
           | p :: ps => String c p :: ps
           end
  end.

(** [strings.SplitN(s, sep, 2)] for a separator of one byte: the text before
    the first separator and, when there is one, the text after it. *)
Fixpoint SplitN2 (s : string) (sep : ascii) : list string :=
  match s with
  | EmptyString => [EmptyString]
  | String c s' =>
      if Ascii.eqb c sep then [EmptyString; s']
      else match SplitN2 s' sep with
           | [] => [String c EmptyString]
           | p :: ps => String c p :: ps
           end
  end.

(** ** Package [strconv] *)

Definition maxUint64 : Z := 2 ^ 64 - 1.
Definition cutoffInt64 : Z := 2 ^ 63.

Definition digit (c : ascii) : option Z :=
  let n := Z.of_N (N_of_ascii c) in
  if (48 <=? n) && (n <=? 57) then Some (n - 48) else None.

Fixpoint digits (s : string) (acc : Z) : option Z :=
  match s with
  | EmptyString => Some acc
  | String c s' =>
      match digit c with
      | Some d => digits s' (acc * 10 + d)
      | None => None
      end
  end.

(** [strconv.ParseUint(s, 10, 64)]; [None] stands for a non-nil [err]
    (syntax or range). *)
Definition ParseUint (s : string) : option Z :=
  match s with
  | EmptyString => None
  | _ => match digits s 0 with
         | Some n => if n <=? maxUint64 then Some n else None
         | None => None
         end
  end.

(** [strconv.ParseInt(s, 10, 64)]. *)
Definition ParseInt (s : string) : option Z :=
  match s with
  | EmptyString => None
  | String c s' =>
      let neg := Ascii.eqb c "-" in
      let s1 := if Ascii.eqb c "+" || neg then s' else s in
      match ParseUint s1 with
      | None => None
      | Some un =>
          if negb neg && (cutoffInt64 <=? un) then None
          else if neg && (cutoffInt64 <? un) then None
          else Some (if neg then - un else un)
      end
  end.

(** The conversion [int(x)] of a [uint64] on a 64-bit platform. *)
Definition to_int (x : Z) : Z :=
  (x + cutoffInt64) mod 2 ^ 64 - cutoffInt64.

(** ** Package [reflect]: kinds and values *)

Module reflect.
Inductive Kind :=
| Invalid | Bool
| Int | Int8 | Int16 | Int32 | Int64
| Uint | Uint8 | Uint16 | Uint32 | Uint64 | Uintptr
| Float32 | Float64 | Complex64 | Complex128
| Array | Chan | Func | Interface | Map | Ptr | Slice
| String | Struct | UnsafePointer.
End reflect.

Inductive IntKind := KInt | KInt8 | KInt16 | KInt32 | KInt64.
Inductive UintKind := KUint | KUint8 | KUint16 | KUint32 | KUint64 | KUintptr.
Inductive FloatKind := KFloat32 | KFloat64.
Inductive OtherKind :=
| KBool | KComplex64 | KComplex128 | KArray | KChan | KFunc | KInterface
| KMap | KPtr | KSlice | KStruct | KUnsafePointer.

(** What a field holds.  [F] is the type of [float64]; a value of a kind
    the engine never looks into keeps an uninterpreted payload. *)
Inductive Value (F : Type) :=
| VInt (k : IntKind) (i : Z)
| VUint (k : UintKind) (u : Z)
| VFloat (k : FloatKind) (f : F)
| VString (s : string)
| VOther (k : OtherKind) (payload : string).
Arguments VInt {F} k i.
Arguments VUint {F} k u.
Arguments VFloat {F} k f.
Arguments VString {F} s.
Arguments VOther {F} k payload.

Definition Kind_of {F} (v : Value F) : reflect.Kind :=
  match v with
  | VInt KInt _ => reflect.Int
  | VInt KInt8 _ => reflect.Int8
  | VInt KInt16 _ => reflect.Int16
  | VInt KInt32 _ => reflect.Int32
  | VInt KInt64 _ => reflect.Int64
  | VUint KUint _ => reflect.Uint
  | VUint KUint8 _ => reflect.Uint8
  | VUint KUint16 _ => reflect.Uint16
  | VUint KUint32 _ => reflect.Uint32
  | VUint KUint64 _ => reflect.Uint64
  | VUint KUintptr _ => reflect.Uintptr
  | VFloat KFloat32 _ => reflect.Float32
  | VFloat KFloat64 _ => reflect.Float64
  | VString _ => reflect.String
  | VOther KBool _ => reflect.Bool
  | VOther KComplex64 _ => reflect.Complex64
  | VOther KComplex128 _ => reflect.Complex128
  | VOther KArray _ => reflect.Array
  | VOther KChan _ => reflect.Chan
  | VOther KFunc _ => reflect.Func
  | VOther KInterface _ => reflect.Interface
  | VOther KMap _ => reflect.Map
  | VOther KPtr _ => reflect.Ptr
  | VOther KSlice _ => reflect.Slice
  | VOther KStruct _ => reflect.Struct
  | VOther KUnsafePointer _ => reflect.UnsafePointer
  end.

(** A field of the struct type: its Go name and the result of
    [Tag.Lookup("validate")]. *)
Record StructField := {
  FName : string;
  Tag_Lookup : option string
}.

(** ** The package's own data *)

Definition TAG_FIELD_NAME := "name".
Definition TAG_FIELD_REQUIRED := "required".
Definition TAG_FIELD_MAX := "max".
Definition TAG_FIELD_MIN := "min".
Definition TAG_FIELD_MAX_LEN := "maxLen".
Definition TAG_FIELD_MIN_LEN := "minLen".
Definition TAG_FIELD_DEFAULT := "default".
Definition TAG_FIELD_ONE_OF := "oneof".

Inductive ErrCode :=
| VALIDATE_ERR_CODE_UNKNOWN
| VALIDATE_ERR_CODE_MISSING_REQ_PARAM
| VALIDATE_ERR_CODE_UNPARSABLE
| VALIDATE_ERR_CODE_TOO_LONG
| VALIDATE_ERR_CODE_TOO_SHORT
| VALIDATE_ERR_CODE_TOO_BIG
| VALIDATE_ERR_CODE_TOO_SMALL
| VALIDATE_ERR_CODE_INVALID.

(** The bound of a [min] or [max] clause, as [val interface{}] holds it. *)
Inductive Bound (F : Type) :=
| BInt (i : Z) | BUint (u : Z) | BFloat (f : F).
Arguments BInt {F} i.
Arguments BUint {F} u.
Arguments BFloat {F} f.

(** The [error] values the package builds, one constructor per
    [fmt.Errorf] format, and the error of [json.Unmarshal]. *)
Inductive error (F : Type) :=
| Errorf_required (name : string)
| Errorf_too_small (name : string) (val : Bound F)
| Errorf_too_big (name : string) (val : Bound F)
| Errorf_too_long (name : string) (reqLen : Z)
| Errorf_too_short (name : string) (reqLen : Z)
| errDecode (msg : string).
Arguments Errorf_required {F} name.
Arguments Errorf_too_small {F} name val.
Arguments Errorf_too_big {F} name val.
Arguments Errorf_too_long {F} name reqLen.
Arguments Errorf_too_short {F} name reqLen.
Arguments errDecode {F} msg.

Record ValidateError (F : Type) := {
  Code : ErrCode;
  ParamName : string;
  OriginalError : option (error F)
}.
Arguments Code {F} v.
Arguments ParamName {F} v.
Arguments OriginalError {F} v.

Record FieldValidationParams := {
  Name : string;
  Required : bool;
  Fields : gmap string string
}.

(** The messages of the package's [panic] calls, and the run-time panic of
    dereferencing a nil [*json.RawMessage]. *)
Inductive PanicMsg :=
| EmptyTag (field : string)
| EmptyTagField
| AlreadyDefined (name : string)
| NameIsEmpty
| RequiredUnknownValue
| UnknownTagField (name : string)
| NotASignedInteger (tagName : string)
| NotAnUnsignedInteger (tagName : string)
| NotAFloat (raw : string)
| NotIntegerOrFloat (tagName field : string)
| NotAString (tagName field : string)
| LenNotAnUnsignedInteger (tagName : string)
| DefaultUnparsable (k : reflect.Kind) (raw : string)
| UnsupportedKind (k : reflect.Kind)
| NilDereference.

Inductive Result (A : Type) :=
| Ok (a : A)
| Panicked (m : PanicMsg).
Arguments Ok {A} a.
Arguments Panicked {A} m.

#[global] Instance Result_bind : MBind Result :=
  fun A B (k : A -> Result B) (r : Result A) =>
    match r with
    | Ok a => k a
    | Panicked m => Panicked m
    end.

(** ** [decodeTagFields] *)

(** The body of the [for _, v := range tagFieldsRaw] loop; the state is
    [vParams] with the map [seen] (used as a set). *)
Definition decodeTagField (v : string)
    (st : FieldValidationParams * gset string)
  : Result (FieldValidationParams * gset string) :=
  let '(vParams, seen) := st in
  let splitRes := SplitN2 v "=" in
  let splitRes0 := nth 0 splitRes "" in
  if decide (splitRes0 = "") then Panicked EmptyTagField else
  let tagFieldValue :=
    if decide (length splitRes = 2%nat) then nth 1 splitRes "" else "" in
  if decide (splitRes0 ∈ seen) then Panicked (AlreadyDefined splitRes0) else
  let seen := {[ splitRes0 ]} ∪ seen in
  if decide (splitRes0 = TAG_FIELD_NAME) then
    if decide (tagFieldValue = "") then Panicked NameIsEmpty
    else Ok ({| Name := tagFieldValue; Required := Required vParams;
                Fields := Fields vParams |}, seen)
  else if decide (splitRes0 = TAG_FIELD_REQUIRED) then
    if decide (tagFieldValue = "") then
      Ok ({| Name := Name vParams; Required := true;
             Fields := Fields vParams |}, seen)
    else if decide (tagFieldValue = "true") then
      Ok ({| Name := Name vParams; Required := true;
             Fields := Fields vParams |}, seen)
    else if decide (tagFieldValue = "false") then
      Ok ({| Name := Name vParams; Required := false;
             Fields := Fields vParams |}, seen)
    else Panicked RequiredUnknownValue
  else
    Ok ({| Name := Name vParams; Required := Required vParams;
           Fields := <[ splitRes0 := tagFieldValue ]> (Fields vParams) |},
        seen).

Fixpoint decodeTagFields_loop (tagFieldsRaw : list string)
    (st : FieldValidationParams * gset string)
  : Result (FieldValidationParams * gset string) :=
  match tagFieldsRaw with
  | [] => Ok st
  | v :: rest => st' ← decodeTagField v st; decodeTagFields_loop rest st'
  end.

Definition decodeTagFields (tagFieldsRaw : list string)
  : Result FieldValidationParams :=
  st ← decodeTagFields_loop tagFieldsRaw
         ({| Name := ""; Required := false; Fields := ∅ |}, ∅);
  Ok (fst st).

(** ** What the package takes from the Go runtime *)

(** A [json.RawMessage] is the text of one JSON value. *)
Abbreviation RawMessage := string (only parsing).

Class Runtime := {
  (** the type [float64] and Go's [<] on it *)
  float64 : Type;
  float64_lt : float64 -> float64 -> bool;
  (** [strconv.ParseFloat(s, bitSize)]; [None] for a non-nil [err] *)
  ParseFloat : string -> Z -> option float64;
  (** [json.Unmarshal(raw, &field)]: the field afterwards and the error *)
  json_Unmarshal : RawMessage -> Value float64 -> Value float64 * option string;
  (** [json.Unmarshal(raw, field)] for a field that is itself a pointer
      (only the earlier revision does this): the pointer stays what it
      is, only the error is of interest *)
  json_Unmarshal_ptr : RawMessage -> Value float64 -> option string;
  (** the order in which the [range] of the i-th field walks the map of
      its constraints: some enumeration of the map's entries *)
  rangeOrder : nat -> gmap string string -> list (string * string);
  rangeOrder_perm : forall i m, rangeOrder i m ≡ₚ map_to_list m
}.

(** What [outputStruct interface{}] can be. *)
Inductive Interface (F : Type) :=
| NonPointer
| NilPointer
| PointerToNonStruct
| PointerToStruct (fields : list (StructField * Value F)).
Arguments NonPointer {F}.
Arguments NilPointer {F}.
Arguments PointerToNonStruct {F}.
Arguments PointerToStruct {F} fields.

Inductive ArgPanic := NotAPointer | IsNilPointer | NotAStructPointer.

(** How a call ends: [Done None] is [return nil], [Done (Some e)] is
    [return &ValidateError{...}]; for one field, [Done None] is going on to
    the next field. *)
Inductive Exit (F : Type) :=
| Done (e : option (ValidateError F))
| Panic (m : PanicMsg)
| ArgumentPanic (m : ArgPanic).
Arguments Done {F} e.
Arguments Panic {F} m.
Arguments ArgumentPanic {F} m.

Section Engine.
Context {RT : Runtime}.

Abbreviation value := (Value float64).
Abbreviation verror := (ValidateError float64).
Abbreviation exit := (Exit float64).

(** *** [setDefaultValue] *)

Definition setDefaultValue (field : value) (rawValue : string)
  : Result value :=
  match field with
  | VUint KUint _ =>
      match ParseUint rawValue with
      | None => Panicked (DefaultUnparsable reflect.Uint rawValue)
      | Some val => Ok (VUint KUint val)
      end
  | VInt KInt _ =>
      match ParseInt rawValue with
      | None => Panicked (DefaultUnparsable reflect.Int rawValue)
      | Some val => Ok (VInt KInt val)
      end
  | VFloat KFloat32 _ =>
      match ParseFloat rawValue 32 with
      | None => Panicked (DefaultUnparsable reflect.Float32 rawValue)
      | Some val => Ok (VFloat KFloat32 val)
      end
  | VFloat KFloat64 _ =>
      match ParseFloat rawValue 64 with
      | None => Panicked (DefaultUnparsable reflect.Float64 rawValue)
      | Some val => Ok (VFloat KFloat64 val)
      end
  | VString _ => Ok (VString rawValue)
  | _ => Panicked (UnsupportedKind (Kind_of field))
  end.

(** *** The constraint loop of [Validate] *)

(** [case TAG_FIELD_MIN, TAG_FIELD_MAX], the switch on the kind: the
    code [valErr.Code] ends with and the bound [val]. *)
Definition checkBound (structField : StructField) (fValue : value)
    (tagName tagRawVal : string) : Result (ErrCode * Bound float64) :=
  let code0 := VALIDATE_ERR_CODE_UNKNOWN in
  match fValue with
  | VInt (KInt | KInt8 | KInt32 | KInt64) i =>
      match ParseInt tagRawVal with
      | None => Panicked (NotASignedInteger tagName)
      | Some val =>
          let code1 :=
            if bool_decide (tagName = TAG_FIELD_MIN) && (i <? val)
            then VALIDATE_ERR_CODE_TOO_SMALL else code0 in
          let code2 :=
            if bool_decide (tagName = TAG_FIELD_MAX) && (val <? i)
            then VALIDATE_ERR_CODE_TOO_BIG else code1 in
          Ok (code2, BInt val)
      end
  | VUint (KUint | KUint8 | KUint32 | KUint64) u =>
      match ParseUint tagRawVal with
      | None => Panicked (NotAnUnsignedInteger tagName)
      | Some val =>
          let code1 :=
            if bool_decide (tagName = TAG_FIELD_MIN) && (u <? val)
            then VALIDATE_ERR_CODE_TOO_SMALL else code0 in
          let code2 :=
            if bool_decide (tagName = TAG_FIELD_MAX) && (val <? u)
            then VALIDATE_ERR_CODE_TOO_BIG else code1 in
          Ok (code2, BUint val)
      end
  | VFloat (KFloat32 | KFloat64) f =>
      match ParseFloat tagRawVal 64 with
      | None => Panicked (NotAFloat tagRawVal)
      | Some val =>
          let code1 :=
            if bool_decide (tagName = TAG_FIELD_MIN) && float64_lt f val
            then VALIDATE_ERR_CODE_TOO_SMALL else code0 in
          let code2 :=
            if bool_decide (tagName = TAG_FIELD_MAX) && float64_lt val f
            then VALIDATE_ERR_CODE_TOO_BIG else code1 in
          Ok (code2, BFloat val)
      end
  | _ => Panicked (NotIntegerOrFloat tagName (FName structField))
  end.

(** [valErr] after [switch valErr.Code]. *)
Definition boundError (paramName : string) (r : ErrCode * Bound float64)
  : verror :=
  let '(code, val) := r in
  {| ParamName := paramName;
     Code := code;
     OriginalError :=
       match code with
       | VALIDATE_ERR_CODE_TOO_SMALL => Some (Errorf_too_small paramName val)
       | VALIDATE_ERR_CODE_TOO_BIG => Some (Errorf_too_big paramName val)
       | _ => None
       end |}.

(** [case TAG_FIELD_MIN_LEN, TAG_FIELD_MAX_LEN]. *)
Definition checkLen (structField : StructField)
    (vParams : FieldValidationParams) (fValue : value)
    (tagName tagRawVal : string) : Result (option verror) :=
  match fValue with
  | VString s =>
      match ParseUint tagRawVal with
      | None => Panicked (LenNotAnUnsignedInteger tagName)
      | Some reqLen =>
          let len := Z.of_nat (String.length s) in
          if bool_decide (tagName = TAG_FIELD_MAX_LEN)
             && (to_int reqLen <? len) then
            Ok (Some {| ParamName := Name vParams;
                        Code := VALIDATE_ERR_CODE_TOO_LONG;
                        OriginalError :=
                          Some (Errorf_too_long (Name vParams) reqLen) |})
          else if bool_decide (tagName = TAG_FIELD_MIN_LEN)
                  && (len <? to_int reqLen) then
            Ok (Some {| ParamName := Name vParams;
                        Code := VALIDATE_ERR_CODE_TOO_SHORT;
                        OriginalError :=
                          Some (Errorf_too_short (Name vParams) reqLen) |})
          else Ok None
      end
  | _ => Panicked (NotAString tagName (FName structField))
  end.

(** The body of [for tagName, tagRawVal := range vParams.Fields]:
    [Ok None] goes on with the next constraint, [Ok (Some e)] is
    [return e].  The [min]/[max] case builds [valErr] and ends without
    returning it. *)
Definition evalTagField (structField : StructField)
    (vParams : FieldValidationParams) (fValue : value)
    (tagName tagRawVal : string) : Result (option verror) :=
  if decide (tagName = TAG_FIELD_MIN \/ tagName = TAG_FIELD_MAX) then
    r ← checkBound structField fValue tagName tagRawVal;
    let valErr := boundError (Name vParams) r in
    Ok None
  else if decide (tagName = TAG_FIELD_MIN_LEN
                  \/ tagName = TAG_FIELD_MAX_LEN) then
    checkLen structField vParams fValue tagName tagRawVal
  else if decide (tagName = TAG_FIELD_ONE_OF) then Ok None
  else if decide (tagName = TAG_FIELD_DEFAULT) then Ok None
  else Panicked (UnknownTagField tagName).

Fixpoint evalTagFields (structField : StructField)
    (vParams : FieldValidationParams) (fValue : value)
    (order : list (string * string)) : exit :=
  match order with
  | [] => Done None
  | (tagName, tagRawVal) :: rest =>
      match evalTagField structField vParams fValue tagName tagRawVal with
      | Panicked m => Panic m
      | Ok (Some e) => Done (Some e)
      | Ok None => evalTagFields structField vParams fValue rest
      end
  end.

(** *** [Validate] *)

(** The body of [for i := 0; i < outType.NumField(); i++]: the field
    afterwards and how the iteration ends. *)
Definition validateField (i : nat)
    (inputData : gmap string (option RawMessage))
    (structField : StructField) (fValue : value) : value * exit :=
  match Tag_Lookup structField with
  | None => (fValue, Done None)
  | Some tagValue =>
      let tagFieldsRaw := Split tagValue "," in
      if decide (length tagFieldsRaw = 0%nat) then
        (fValue, Panic (EmptyTag (FName structField)))
      else
        match decodeTagFields tagFieldsRaw with
        | Panicked m => (fValue, Panic m)
        | Ok vParams =>
            match inputData !! Name vParams with
            | None =>
                if Required vParams then
                  (fValue,
                   Done (Some
                     {| ParamName := Name vParams;
                        Code := VALIDATE_ERR_CODE_MISSING_REQ_PARAM;
                        OriginalError :=
                          Some (Errorf_required (Name vParams)) |}))
                else
                  match Fields vParams !! TAG_FIELD_DEFAULT with
                  | Some v =>
                      match setDefaultValue fValue v with
                      | Panicked m => (fValue, Panic m)
                      | Ok fValue' =>
                          (fValue',
                           evalTagFields structField vParams fValue'
                             (rangeOrder i (Fields vParams)))
                      end
                  | None => (fValue, Done None)
                  end
            | Some None => (fValue, Panic NilDereference)
            | Some (Some val) =>
                let '(fValue', err) := json_Unmarshal val fValue in
                match err with
                | Some msg =>
                    (fValue',
                     Done (Some {| ParamName := Name vParams;
                                   Code := VALIDATE_ERR_CODE_UNPARSABLE;
                                   OriginalError := Some (errDecode msg) |}))
                | None =>
                    (fValue',
                     evalTagFields structField vParams fValue'
                       (rangeOrder i (Fields vParams)))
                end
            end
        end
  end.

(** The loop over the fields, from field number [i] on. *)
Fixpoint validateFields (i : nat)
    (inputData : gmap string (option RawMessage))
    (fields : list (StructField * value))
  : list (StructField * value) * exit :=
  match fields with
  | [] => ([], Done None)
  | (structField, fValue) :: rest =>
      match validateField i inputData structField fValue with
      | (fValue', Done None) =>
          let '(rest', r) := validateFields (S i) inputData rest in
          ((structField, fValue') :: rest', r)
      | (fValue', r) => ((structField, fValue') :: rest, r)
      end
  end.

Definition Validate (inputData : gmap string (option RawMessage))
    (outputStruct : Interface float64) : Interface float64 * exit :=
  match outputStruct with
  | NonPointer => (outputStruct, ArgumentPanic NotAPointer)
  | NilPointer => (outputStruct, ArgumentPanic IsNilPointer)
  | PointerToNonStruct => (outputStruct, ArgumentPanic NotAStructPointer)
  | PointerToStruct fields =>
      let '(fields', r) := validateFields 0 inputData fields in
      (PointerToStruct fields', r)
  end.

End Engine.

(** ** The method [Error] *)

(** [fmt]'s [%d] and [%v] of an integer: its decimal numeral. *)
Definition FormatInt (n : Z) : string := NilZero.string_of_int (Z.to_int n).

Section ErrorMethod.
Context {F : Type}.

(** [fmt]'s [%v] of a [float64]. *)
Variable FormatFloat : F -> string.

Definition FormatBound (val : Bound F) : string :=
  match val with
  | BInt i => FormatInt i
  | BUint u => FormatInt u
  | BFloat f => FormatFloat f
  end.

(** [err.Error()] of an [error] the package builds with [fmt.Errorf], and
    of the error of [json.Unmarshal]. *)
Definition error_Error (err : error F) : string :=
  match err with
  | Errorf_required name => "Param '" ++ name ++ "' is required"
  | Errorf_too_small name val =>
      "Param '" ++ name ++ "' is too small (< " ++ FormatBound val ++ ")"
  | Errorf_too_big name val =>
      "Param '" ++ name ++ "' is too big (> " ++ FormatBound val ++ ")"
  | Errorf_too_long name reqLen =>
      "Param '" ++ name ++ "' is too long (> " ++ FormatInt reqLen ++ ")"
  | Errorf_too_short name reqLen =>
      "Param '" ++ name ++ "' is too short (< " ++ FormatInt reqLen ++ ")"
  | errDecode msg => msg
  end.

(** [func (e *ValidateError) Error() string], later revision. *)
Definition Error (e : ValidateError F) : string :=
  match OriginalError e with
  | None =>
      match Code e with
      | VALIDATE_ERR_CODE_UNPARSABLE =>
          "Param '" ++ ParamName e ++ "' is invalid or corrupted"
      | _ => ""
      end
  | Some err => error_Error err
  end.

End ErrorMethod.

(** ** The earlier revision of [Validate] *)

Module Rev1.
Section Engine.
Context {RT : Runtime}.

Abbreviation value := (Value float64).
Abbreviation exit := (Exit float64).

(** [for name, _ := range vParams.Fields]: a switch with the default case
    only, so the first name the iteration meets panics. *)
Definition evalTagFields (order : list (string * string)) : exit :=
  match order with
  | [] => Done None
  | (name, _) :: _ => Panic (UnknownTagField name)
  end.

Definition validateField (i : nat)
    (inputData : gmap string (option RawMessage))
    (structField : StructField) (fValue : value) : value * exit :=
  match Tag_Lookup structField with
  | None => (fValue, Done None)
  | Some tagValue =>
      let tagFieldsRaw := Split tagValue "," in
      if decide (length tagFieldsRaw = 0%nat) then
        (fValue, Panic (EmptyTag (FName structField)))
      else
        match decodeTagFields tagFieldsRaw with
        | Panicked m => (fValue, Panic m)
        | Ok vParams =>
            match inputData !! Name vParams with
            | None =>
                if Required vParams then
                  (fValue,
                   Done (Some
                     {| ParamName := Name vParams;
                        Code := VALIDATE_ERR_CODE_MISSING_REQ_PARAM;
                        OriginalError := None |}))
                else (fValue, Done None)
            | Some None => (fValue, Panic NilDereference)
            | Some (Some val) =>
                let '(fValue', err) :=
                  match fValue with
                  | VOther KPtr _ => (fValue, json_Unmarshal_ptr val fValue)
                  | _ => json_Unmarshal val fValue
                  end in
                match err with
                | Some msg =>
                    (fValue',
                     Done (Some {| ParamName := Name vParams;
                                   Code := VALIDATE_ERR_CODE_UNPARSABLE;
                                   OriginalError := Some (errDecode msg) |}))
                | None =>
                    (fValue', evalTagFields (rangeOrder i (Fields vParams)))
                end
            end
        end
  end.

Fixpoint validateFields (i : nat)
    (inputData : gmap string (option RawMessage))
    (fields : list (StructField * value))
  : list (StructField * value) * exit :=
  match fields with
  | [] => ([], Done None)
  | (structField, fValue) :: rest =>
      match validateField i inputData structField fValue with
      | (fValue', Done None) =>
          let '(rest', r) := validateFields (S i) inputData rest in
          ((structField, fValue') :: rest', r)
      | (fValue', r) => ((structField, fValue') :: rest, r)
      end
  end.

Definition Validate (inputData : gmap string (option RawMessage))
    (outputStruct : Interface float64) : Interface float64 * exit :=
  match outputStruct with
  | NonPointer => (outputStruct, ArgumentPanic NotAPointer)
  | NilPointer => (outputStruct, ArgumentPanic IsNilPointer)
  | PointerToNonStruct => (outputStruct, ArgumentPanic NotAStructPointer)
  | PointerToStruct fields =>
      let '(fields', r) := validateFields 0 inputData fields in
      (PointerToStruct fields', r)
  end.

End Engine.

(** [func (e *ValidateError) Error() string], earlier revision. *)
Definition Error {F} (FormatFloat : F -> string) (e : ValidateError F)
  : string :=
  match OriginalError e with
  | None => ""
  | Some err => error_Error FormatFloat err
  end.

End Rev1.

(** ** A runtime for closed examples

    It has no floating-point values at all, decodes the JSON literals
    [null], integers and plain strings (printable ASCII, no escapes) into
    fields of integer and string kinds, reports an error for anything
    else, and walks a map in the order of [map_to_list]. *)

Definition quote : ascii := ascii_of_nat 34.
Definition backslash : ascii := ascii_of_nat 92.

(** The text [s] between double quotes. *)
Definition quoted (s : string) : string :=
  String quote (s ++ String quote EmptyString).

Definition jsonNat (s : string) : option Z :=
  match s with
  | EmptyString => None
  | String c EmptyString => digit c
  | String c _ => if Ascii.eqb c "0" then None else digits s 0
  end.

Definition jsonInteger (s : string) : option Z :=
  match s with
  | String c s' =>
      if Ascii.eqb c "-" then Z.opp <$> jsonNat s' else jsonNat s
  | EmptyString => None
  end.

Fixpoint jsonStringBody (s : string) : option string :=
  match s with
  | EmptyString => None
  | String c rest =>
      if Ascii.eqb c quote then
        match rest with EmptyString => Some EmptyString | _ => None end
      else if Ascii.eqb c backslash then None
      else
        let n := Z.of_N (N_of_ascii c) in
        if (32 <=? n) && (n <=? 126) then String c <$> jsonStringBody rest
        else None
  end.

Definition jsonString (s : string) : option string :=
  match s with
  | String c rest => if Ascii.eqb c quote then jsonStringBody rest else None
  | EmptyString => None
  end.

Definition intBits (k : IntKind) : Z :=
  match k with
  | KInt | KInt64 => 64 | KInt8 => 8 | KInt16 => 16 | KInt32 => 32
  end.

Definition uintBits (k : UintKind) : Z :=
  match k with
  | KUint | KUint64 | KUintptr => 64
  | KUint8 => 8 | KUint16 => 16 | KUint32 => 32
  end.

Definition decodeScalar (raw : RawMessage) (v : Value Empty_set)
  : Value Empty_set * option string :=
  if decide (raw = "null") then (v, None) else
  match v with
  | VInt k _ =>
      match jsonInteger raw with
      | Some n =>
          if (- 2 ^ (intBits k - 1) <=? n) && (n <? 2 ^ (intBits k - 1))
          then (VInt k n, None)
          else (v, Some "json: number out of range")
      | None => (v, Some "json: cannot unmarshal into an integer")
      end
  | VUint k _ =>
      match jsonNat raw with
      | Some n =>
          if n <? 2 ^ uintBits k then (VUint k n, None)
          else (v, Some "json: number out of range")
      | None => (v, Some "json: cannot unmarshal into an unsigned integer")
      end
  | VString _ =>
      match jsonString raw with
      | Some s => (VString s, None)
      | None => (v, Some "json: cannot unmarshal into a string")
      end
  | _ => (v, Some "json: value not covered")
  end.

Definition scalarRuntime : Runtime :=
  {| float64 := Empty_set;
     float64_lt := fun _ _ => false;
     ParseFloat := fun _ _ => None;
     json_Unmarshal := decodeScalar;
     json_Unmarshal_ptr := fun _ _ => Some "json: value not covered";
     rangeOrder := fun _ m => map_to_list m;
     rangeOrder_perm := fun _ _ => reflexivity _ |}.

(** ** The vocabulary of the properties *)

(** The two components of a clause [name[=value]], as [decodeTagFields]
    takes them from [strings.SplitN(v, "=", 2)]. *)
Definition clauseName (v : string) : string := nth 0 (SplitN2 v "=") "".

Definition clauseValue (v : string) : string :=
  if decide (length (SplitN2 v "=") = 2%nat) then nth 1 (SplitN2 v "=") ""
  else "".

(** A clause that [decodeTagFields] rejects whatever came before it. *)
Definition malformedClause (v : string) : Prop :=
  clauseName v = ""
  \/ (clauseName v = TAG_FIELD_NAME /\ clauseValue v = "")
  \/ (clauseName v = TAG_FIELD_REQUIRED
      /\ clauseValue v <> "" /\ clauseValue v <> "true"
      /\ clauseValue v <> "false").

(** The panics of [decodeTagFields]. *)
Definition isParsePanic (m : PanicMsg) : bool :=
  match m with
  | EmptyTagField | AlreadyDefined _ | NameIsEmpty | RequiredUnknownValue =>
      true
  | _ => false
  end.

(** The clause names the specification lists as recognized. *)
Definition recognized : list string :=
  [TAG_FIELD_NAME; TAG_FIELD_REQUIRED; TAG_FIELD_MIN; TAG_FIELD_MAX;
   TAG_FIELD_MIN_LEN; TAG_FIELD_MAX_LEN; TAG_FIELD_DEFAULT; TAG_FIELD_ONE_OF].

(** The coerced default in the specification's words: the raw string read
    as a value of the field's declared type, for the declared types [int],
    [uint], [float32], [float64] and [string]. *)
Definition coercedDefault {RT : Runtime} (field : Value float64)
    (rawValue : string) : option (Value float64) :=
  match Kind_of field with
  | reflect.Int => VInt KInt <$> ParseInt rawValue
  | reflect.Uint => VUint KUint <$> ParseUint rawValue
  | reflect.Float32 => VFloat KFloat32 <$> ParseFloat rawValue 32
  | reflect.Float64 => VFloat KFloat64 <$> ParseFloat rawValue 64
  | reflect.String => Some (VString rawValue)
  | _ => None
  end.

(** The text of a tag, for the round trip through the parser: the clauses
    [name=...], [required] when set, and one [k=v] per constraint, joined
    by commas. *)
Fixpoint Join (elems : list string) (sep : ascii) : string :=
  match elems with
  | [] => ""
  | [e] => e
  | e :: rest => e ++ String sep (Join rest sep)
  end.

Definition renderClause (kv : string * string) : string :=
  fst kv ++ String "=" (snd kv).

Definition tagClauses (vParams : FieldValidationParams) : list string :=
  renderClause (TAG_FIELD_NAME, Name vParams)
  :: ((if Required vParams then [TAG_FIELD_REQUIRED] else [])
      ++ (renderClause <$> map_to_list (Fields vParams)))%list.

Definition renderTag (vParams : FieldValidationParams) : string :=
  Join (tagClauses vParams) ",".

(** The byte [c] occurs in [s]. *)
Fixpoint occurs (c : ascii) (s : string) : bool :=
  match s with
  | EmptyString => false
  | String c' s' => Ascii.eqb c' c || occurs c s'
  end.

(** The conditions under which a [FieldValidationParams] can be written
    as a tag: a name that is not empty and has no comma; constraint names
    that are not empty, are not [name] or [required] and have no [=] and
    no comma; constraint values without a comma. *)
Definition writable (vParams : FieldValidationParams) : Prop :=
  Name vParams <> ""
  /\ occurs "," (Name vParams) = false
  /\ forall k x, Fields vParams !! k = Some x ->
       k <> "" /\ k <> TAG_FIELD_NAME /\ k <> TAG_FIELD_REQUIRED
       /\ occurs "=" k = false /\ occurs "," k = false
       /\ occurs "," x = false.

(** The exit of the later revision as the earlier revision shows it: a
    [MissingRequired] error without its message. *)
Definition withoutRequiredText {F} (r : Exit F) : Exit F :=
  match r with
  | Done (Some e) =>
      match Code e with
      | VALIDATE_ERR_CODE_MISSING_REQ_PARAM =>
          Done (Some {| ParamName := ParamName e; Code := Code e;
                        OriginalError := None |})
      | _ => r
      end
  | _ => r
  end.

(** * Properties *)

(** ** Worked inputs *)

(** Scenarios D, E and F of the specification, run on [scalarRuntime]. *)
Example scenarioD :
  snd (@Validate scalarRuntime
         {[ "bio" := Some (quoted "a very long string") ]}
         (PointerToStruct
            [({| FName := "Bio"; Tag_Lookup := Some "name=bio,maxLen=10" |},
              VString "")]))
  = Done (Some {| ParamName := "bio";
                  Code := VALIDATE_ERR_CODE_TOO_LONG;
                  OriginalError := Some (Errorf_too_long "bio" 10) |}).
Proof. vm_compute. reflexivity. Qed.

Example scenarioE :
  snd (@Validate scalarRuntime ∅
         (PointerToStruct
            [({| FName := "Count";
                 Tag_Lookup := Some "name=count,required" |},
              VInt KInt 0)]))
  = Done (Some {| ParamName := "count";
                  Code := VALIDATE_ERR_CODE_MISSING_REQ_PARAM;
                  OriginalError := Some (Errorf_required "count") |}).
Proof. vm_compute. reflexivity. Qed.

Example scenarioF :
  exists msg,
    snd (@Validate scalarRuntime {[ "count" := Some (quoted "oops") ]}
           (PointerToStruct
              [({| FName := "Count"; Tag_Lookup := Some "name=count" |},
                VInt KInt 0)]))
    = Done (Some {| ParamName := "count";
                    Code := VALIDATE_ERR_CODE_UNPARSABLE;
                    OriginalError := Some (errDecode msg) |}).
Proof. eexists. vm_compute. reflexivity. Qed.

Example decode_scenarioA :
  decodeTagFields (Split "name=age,required,min=0,max=150" ",")
  = Ok {| Name := "age"; Required := true;
          Fields := <[ "max" := "150" ]> (<[ "min" := "0" ]> ∅) |}.
Proof. vm_compute. reflexivity. Qed.

(** ** Package [strconv]: ranges *)

Lemma digits_nonneg s : forall acc n,
  0 <= acc -> digits s acc = Some n -> 0 <= n.
Proof.
  induction s as [|c s IH]; simpl; intros acc n Hacc.
  - intros Heq. inversion Heq; subst. done.
  - unfold digit.
    destruct ((48 <=? Z.of_N (N_of_ascii c))
              && (Z.of_N (N_of_ascii c) <=? 57)) eqn:Eb; [|discriminate].
    apply IH. apply andb_true_iff in Eb as [Eb _].
    apply Z.leb_le in Eb. lia.
Qed.

Lemma ParseUint_range s n : ParseUint s = Some n -> 0 <= n <= maxUint64.
Proof.
  unfold ParseUint. destruct s as [|c t]; [discriminate|].
  destruct (digits (String c t) 0) as [n'|] eqn:Ed; [|discriminate].
  destruct (n' <=? maxUint64) eqn:El; [|discriminate].
  intros Heq. inversion Heq; subst. split.
  - by eapply digits_nonneg; [|exact Ed].
  - by apply Z.leb_le.
Qed.


(** ** The tag parser *)

Arguments decodeTagField : simpl never.

Lemma Split_not_nil s sep : Split s sep <> [].
Proof.
  induction s as [|c s IH]; simpl; [done|].
  destruct (Ascii.eqb c sep); [done|].
  destruct (Split s sep); done.
Qed.

(** One clause: it panics exactly when it is malformed or its name was
    seen, and otherwise records the name in [seen]. *)
Lemma decodeTagField_panics v vParams seen :
  (exists m, decodeTagField v (vParams, seen) = Panicked m)
  <-> malformedClause v \/ clauseName v ∈ seen.
Proof.
  unfold decodeTagField, malformedClause.
  fold (clauseName v). fold (clauseValue v).
  unfold TAG_FIELD_NAME, TAG_FIELD_REQUIRED.
  repeat case_decide; split;
    try (intros [m Hm]; discriminate Hm);
    try (intros _; by eexists);
    try (intros _; tauto);
    try (intros [[Hb|[[Hb1 Hb2]|[Hb1 Hb2]]]|Hb]; exfalso; congruence || tauto).
Qed.

Lemma decodeTagField_panic_kind v st m :
  decodeTagField v st = Panicked m -> isParsePanic m = true.
Proof.
  destruct st as [vParams seen]. unfold decodeTagField.
  repeat case_decide; intros Heq; inversion Heq; done.
Qed.

Lemma decodeTagField_seen v vParams seen vParams' seen' :
  decodeTagField v (vParams, seen) = Ok (vParams', seen') ->
  seen' = {[ clauseName v ]} ∪ seen.
Proof.
  unfold decodeTagField. fold (clauseName v).
  repeat case_decide; intros Heq; inversion Heq; done.
Qed.

Lemma decodeTagFields_loop_panics tagFieldsRaw : forall vParams seen,
  (exists m, decodeTagFields_loop tagFieldsRaw (vParams, seen) = Panicked m)
  <-> Exists malformedClause tagFieldsRaw
      \/ ~ NoDup (clauseName <$> tagFieldsRaw)
      \/ (exists v, v ∈ tagFieldsRaw /\ clauseName v ∈ seen).
Proof.
  induction tagFieldsRaw as [|v rest IH]; intros vParams seen; simpl.
  - split.
    + intros [m H]. discriminate H.
    + intros [H|[H|[v [H _]]]].
      * inversion H.
      * destruct H. constructor.
      * inversion H.
  - destruct (decodeTagField v (vParams, seen)) as [[vParams' seen']|m] eqn:E.
    + assert (Hok : ~ (malformedClause v \/ clauseName v ∈ seen)).
      { rewrite <- decodeTagField_panics. intros [m Hm].
        rewrite E in Hm. discriminate Hm. }
      apply decodeTagField_seen in E. subst seen'.
      change (Ok (vParams', {[clauseName v]} ∪ seen) ≫= _)
        with (decodeTagFields_loop rest (vParams', {[clauseName v]} ∪ seen)).
      rewrite IH. rewrite Exists_cons, NoDup_cons.
      split.
      * intros [H|[H|[w [Hw Hin]]]].
        -- left. by right.
        -- right. left. intros [_ Hn]. by apply H.
        -- apply elem_of_union in Hin as [Hin|Hin].
           ++ apply elem_of_singleton in Hin.
              right. left. intros [Hn _]. apply Hn.
              rewrite <- Hin. by apply list_elem_of_fmap_2.
           ++ right. right. exists w. split; [by right|done].
      * intros [[H|H]|[H|[w [Hw Hin]]]].
        -- exfalso. apply Hok. by left.
        -- by left.
        -- destruct (decide (clauseName v ∈ clauseName <$> rest)) as [Hd|Hd].
           ++ apply list_elem_of_fmap in Hd as [w [Hw1 Hw2]].
              right. right. exists w. split; [done|].
              apply elem_of_union. left. by apply elem_of_singleton.
           ++ right. left. intros Hn. apply H. by split.
        -- apply elem_of_cons in Hw as [->|Hw].
           ++ exfalso. apply Hok. by right.
           ++ right. right. exists w. split; [done|].
              apply elem_of_union. by right.
    + split; [|intros _; by exists m].
      intros _.
      assert (Hbad : malformedClause v \/ clauseName v ∈ seen).
      { rewrite <- decodeTagField_panics. by exists m. }
      destruct Hbad as [Hbad|Hbad].
      * left. by left.
      * right. right. exists v. split; [by left|done].
Qed.

Lemma decodeTagFields_loop_panic_kind tagFieldsRaw : forall st m,
  decodeTagFields_loop tagFieldsRaw st = Panicked m -> isParsePanic m = true.
Proof.
  induction tagFieldsRaw as [|v rest IH]; intros st m; simpl; [done|].
  destruct (decodeTagField v st) as [st'|m'] eqn:E; simpl.
  - apply IH.
  - intros H. inversion H; subst. by eapply decodeTagField_panic_kind.
Qed.

Lemma decodeTagFields_panics tagFieldsRaw :
  (exists m, decodeTagFields tagFieldsRaw = Panicked m)
  <-> Exists malformedClause tagFieldsRaw
      \/ ~ NoDup (clauseName <$> tagFieldsRaw).
Proof.
  unfold decodeTagFields.
  pose proof (decodeTagFields_loop_panics tagFieldsRaw
                {| Name := ""; Required := false; Fields := ∅ |} ∅) as L.
  destruct (decodeTagFields_loop tagFieldsRaw _) as [st|m]; simpl.
  - split.
    + intros [m H]. discriminate H.
    + intros H. exfalso.
      assert (Hn : exists m, Ok st = @Panicked (FieldValidationParams * gset string) m).
      { apply L. destruct H as [H|H]; [by left|by right; left]. }
      destruct Hn as [m Hm]. discriminate Hm.
  - split; [|intros _; by exists m].
    intros _. destruct L as [L _].
    destruct (L (ex_intro _ m eq_refl)) as [H|[H|[v [_ H]]]].
    + by left.
    + by right.
    + by apply not_elem_of_empty in H.
Qed.

Lemma decodeTagFields_panic_kind tagFieldsRaw m :
  decodeTagFields tagFieldsRaw = Panicked m -> isParsePanic m = true.
Proof.
  unfold decodeTagFields.
  destruct (decodeTagFields_loop tagFieldsRaw _) as [st|m'] eqn:E; simpl.
  - discriminate.
  - intros H. inversion H; subst. by eapply decodeTagFields_loop_panic_kind.
Qed.

(** What an accepted clause does to [vParams]. *)
Lemma decodeTagField_ok v vParams seen vParams' seen' :
  decodeTagField v (vParams, seen) = Ok (vParams', seen') ->
  clauseName v <> "" /\ (clauseName v ∉ seen) /\
  ((clauseName v = TAG_FIELD_NAME /\ clauseValue v <> ""
    /\ vParams' = {| Name := clauseValue v; Required := Required vParams;
                     Fields := Fields vParams |})
   \/ (clauseName v = TAG_FIELD_REQUIRED
       /\ vParams' = {| Name := Name vParams;
                        Required := negb (bool_decide (clauseValue v = "false"));
                        Fields := Fields vParams |})
   \/ (clauseName v <> TAG_FIELD_NAME /\ clauseName v <> TAG_FIELD_REQUIRED
       /\ vParams' = {| Name := Name vParams; Required := Required vParams;
                        Fields := <[ clauseName v := clauseValue v ]>
                                    (Fields vParams) |})).
Proof.
  unfold decodeTagField. fold (clauseName v). fold (clauseValue v).
  unfold TAG_FIELD_NAME, TAG_FIELD_REQUIRED.
  repeat case_decide; intros Heq; inversion Heq; subst;
    (split; [done|split; [done|]]);
    first [ by left
          | right; left; split; [done|];
            first [ by rewrite bool_decide_eq_false_2 by congruence
                  | by rewrite bool_decide_eq_true_2 ]
          | by right; right ].
Qed.

Lemma decodeTagFields_loop_ok_fresh tagFieldsRaw vParams seen st :
  decodeTagFields_loop tagFieldsRaw (vParams, seen) = Ok st ->
  NoDup (clauseName <$> tagFieldsRaw)
  /\ (forall v, v ∈ tagFieldsRaw -> ~ malformedClause v /\ clauseName v ∉ seen).
Proof.
  intros Hok.
  pose proof (decodeTagFields_loop_panics tagFieldsRaw vParams seen) as [_ L].
  assert (Hn : ~ exists m,
             decodeTagFields_loop tagFieldsRaw (vParams, seen) = Panicked m).
  { rewrite Hok. intros [m Hm]. discriminate Hm. }
  split.
  - destruct (decide (NoDup (clauseName <$> tagFieldsRaw))) as [|Hd]; [done|].
    exfalso. apply Hn, L. right. by left.
  - intros v Hv. split.
    + intros Hbad. apply Hn, L. left. apply Exists_exists. by exists v.
    + intros Hin. apply Hn, L. right. right. by exists v.
Qed.

(** The constraints of an accepted tag are its clauses other than [name]
    and [required]. *)
Lemma decodeTagFields_loop_Fields tagFieldsRaw :
  forall vParams seen vParams' seen',
  decodeTagFields_loop tagFieldsRaw (vParams, seen) = Ok (vParams', seen') ->
  dom (Fields vParams) ⊆ seen ->
  forall k x,
    Fields vParams' !! k = Some x
    <-> (exists v, v ∈ tagFieldsRaw /\ clauseName v = k /\ clauseValue v = x
                   /\ k <> TAG_FIELD_NAME /\ k <> TAG_FIELD_REQUIRED)
        \/ Fields vParams !! k = Some x.
Proof.
  induction tagFieldsRaw as [|v rest IH];
    intros vParams seen vParams' seen' Hok Hdom k x.
  - simpl in Hok. inversion Hok; subst. split; [by right|].
    intros [[v [Hv _]]|H]; [inversion Hv|done].
  - pose proof (decodeTagFields_loop_ok_fresh _ _ _ _ Hok) as [Hnd Hfresh].
    simpl in Hok.
    destruct (decodeTagField v (vParams, seen)) as [[vParams1 seen1]|m] eqn:E;
      [|discriminate Hok].
    change (decodeTagFields_loop rest (vParams1, seen1) = Ok (vParams', seen'))
      in Hok.
    pose proof (decodeTagField_seen _ _ _ _ _ E) as ->.
    pose proof (decodeTagField_ok _ _ _ _ _ E) as [Hne [Hns Hshape]].
    simpl in Hnd. apply NoDup_cons in Hnd as [Hnotin Hnd].
    assert (Hdom1 : dom (Fields vParams1) ⊆ {[clauseName v]} ∪ seen).
    { destruct Hshape as [[_ [_ ->]]|[[_ ->]|[_ [_ ->]]]]; simpl.
      - set_solver.
      - set_solver.
      - rewrite dom_insert. set_solver. }
    rewrite (IH _ _ _ _ Hok Hdom1 k x).
    assert (Hk : Fields vParams1 !! k = Some x
                 <-> (clauseName v = k /\ clauseValue v = x
                      /\ k <> TAG_FIELD_NAME /\ k <> TAG_FIELD_REQUIRED)
                     \/ Fields vParams !! k = Some x).
    { assert (Hfr : Fields vParams !! clauseName v = None).
      { apply not_elem_of_dom. set_solver. }
      destruct Hshape as [[Hn [_ ->]]|[[Hn ->]|[Hn1 [Hn2 ->]]]]; simpl.
      - split; [by right|]. intros [[<- [_ [Hk _]]]|H]; [done|done].
      - split; [by right|]. intros [[<- [_ [_ Hk]]]|H]; [done|done].
      - rewrite lookup_insert_Some. split.
        + intros [[<- <-]|[_ H]]; [by left|by right].
        + intros [[<- [<- _]]|H]; [by left|].
          right. split; [|done]. intros <-. congruence. }
    rewrite Hk. split.
    + intros [[w [Hw H]]|[H|H]].
      * left. exists w. split; [by right|done].
      * left. exists v. split; [by left|done].
      * by right.
    + intros [[w [Hw H]]|H].
      * apply elem_of_cons in Hw as [->|Hw].
        -- right. by left.
        -- left. by exists w.
      * right. by right.
Qed.

Lemma decodeTagFields_Fields tagFieldsRaw vParams k x :
  decodeTagFields tagFieldsRaw = Ok vParams ->
  Fields vParams !! k = Some x
  <-> exists v, v ∈ tagFieldsRaw /\ clauseName v = k /\ clauseValue v = x
                /\ k <> TAG_FIELD_NAME /\ k <> TAG_FIELD_REQUIRED.
Proof.
  unfold decodeTagFields.
  destruct (decodeTagFields_loop tagFieldsRaw _) as [[vParams' seen']|m] eqn:E;
    simpl; [|discriminate].
  intros Heq. inversion Heq; subst.
  rewrite (decodeTagFields_loop_Fields _ _ _ _ _ E); [|set_solver].
  simpl. rewrite lookup_empty. split.
  - intros [H|H]; [done|discriminate H].
  - intros H. by left.
Qed.

(** The name of an accepted tag is the value of its [name] clause, and the
    empty string when it has none. *)
Lemma decodeTagFields_loop_Name tagFieldsRaw :
  forall vParams seen vParams' seen',
  decodeTagFields_loop tagFieldsRaw (vParams, seen) = Ok (vParams', seen') ->
  (exists v, v ∈ tagFieldsRaw /\ clauseName v = TAG_FIELD_NAME
             /\ Name vParams' = clauseValue v /\ clauseValue v <> "")
  \/ ((forall v, v ∈ tagFieldsRaw -> clauseName v <> TAG_FIELD_NAME)
      /\ Name vParams' = Name vParams).
Proof.
  induction tagFieldsRaw as [|v rest IH];
    intros vParams seen vParams' seen' Hok.
  - simpl in Hok. inversion Hok; subst. right. split; [|done].
    intros v Hv. inversion Hv.
  - pose proof (decodeTagFields_loop_ok_fresh _ _ _ _ Hok) as [Hnd _].
    simpl in Hok.
    destruct (decodeTagField v (vParams, seen)) as [[vParams1 seen1]|m] eqn:E;
      [|discriminate Hok].
    change (decodeTagFields_loop rest (vParams1, seen1) = Ok (vParams', seen'))
      in Hok.
    pose proof (decodeTagField_ok _ _ _ _ _ E) as [Hne [Hns Hshape]].
    simpl in Hnd. apply NoDup_cons in Hnd as [Hnotin Hnd].
    destruct (IH _ _ _ _ Hok) as [[w [Hw H]]|[Hall Hsame]].
    + left. exists w. split; [by right|done].
    + destruct Hshape as [[Hn [Hv ->]]|[[Hn ->]|[Hn1 [Hn2 ->]]]]; simpl in Hsame.
      * left. exists v. split; [by left|done].
      * right. split; [|done]. intros w Hw.
        apply elem_of_cons in Hw as [->|Hw]; [|by apply Hall].
        rewrite Hn. done.
      * right. split; [|done]. intros w Hw.
        apply elem_of_cons in Hw as [->|Hw]; [done|by apply Hall].
Qed.

Lemma decodeTagFields_Name tagFieldsRaw vParams :
  decodeTagFields tagFieldsRaw = Ok vParams ->
  (exists v, v ∈ tagFieldsRaw /\ clauseName v = TAG_FIELD_NAME
             /\ Name vParams = clauseValue v /\ clauseValue v <> "")
  \/ ((forall v, v ∈ tagFieldsRaw -> clauseName v <> TAG_FIELD_NAME)
      /\ Name vParams = "").
Proof.
  unfold decodeTagFields.
  destruct (decodeTagFields_loop tagFieldsRaw _) as [[vParams' seen']|m] eqn:E;
    simpl; [|discriminate].
  intros Heq. inversion Heq; subst.
  apply (decodeTagFields_loop_Name _ _ _ _ _ E).
Qed.

Lemma NoDup_fmap_eq {A B} (f : A -> B) (l : list A) x y :
  NoDup (f <$> l) -> x ∈ l -> y ∈ l -> f x = f y -> x = y.
Proof.
  induction l as [|a l IH]; intros Hnd Hx Hy Hf; [inversion Hx|].
  simpl in Hnd. apply NoDup_cons in Hnd as [Hnotin Hnd].
  apply elem_of_cons in Hx as [->|Hx]; apply elem_of_cons in Hy as [->|Hy].
  - done.
  - exfalso. apply Hnotin. rewrite Hf. by apply list_elem_of_fmap_2.
  - exfalso. apply Hnotin. rewrite <- Hf. by apply list_elem_of_fmap_2.
  - by apply IH.
Qed.

(** An accepted tag is required exactly when it has a [required] clause
    whose value is not [false]. *)
Lemma decodeTagFields_loop_Required tagFieldsRaw :
  forall vParams seen vParams' seen',
  decodeTagFields_loop tagFieldsRaw (vParams, seen) = Ok (vParams', seen') ->
  (exists v, v ∈ tagFieldsRaw /\ clauseName v = TAG_FIELD_REQUIRED
             /\ Required vParams'
                = negb (bool_decide (clauseValue v = "false")))
  \/ ((forall v, v ∈ tagFieldsRaw -> clauseName v <> TAG_FIELD_REQUIRED)
      /\ Required vParams' = Required vParams).
Proof.
  induction tagFieldsRaw as [|v rest IH];
    intros vParams seen vParams' seen' Hok.
  - simpl in Hok. inversion Hok; subst. right. split; [|done].
    intros v Hv. inversion Hv.
  - simpl in Hok.
    destruct (decodeTagField v (vParams, seen)) as [[vParams1 seen1]|m] eqn:E;
      [|discriminate Hok].
    change (decodeTagFields_loop rest (vParams1, seen1) = Ok (vParams', seen'))
      in Hok.
    pose proof (decodeTagField_ok _ _ _ _ _ E) as [Hne [Hns Hshape]].
    destruct (IH _ _ _ _ Hok) as [[w [Hw H]]|[Hall Hsame]].
    + left. exists w. split; [by right|done].
    + destruct Hshape as [[Hn [Hv ->]]|[[Hn ->]|[Hn1 [Hn2 ->]]]]; simpl in Hsame.
      * right. split; [|done]. intros w Hw.
        apply elem_of_cons in Hw as [->|Hw]; [|by apply Hall].
        rewrite Hn. done.
      * left. exists v. split; [by left|done].
      * right. split; [|done]. intros w Hw.
        apply elem_of_cons in Hw as [->|Hw]; [done|by apply Hall].
Qed.

Lemma decodeTagFields_Required tagFieldsRaw vParams :
  decodeTagFields tagFieldsRaw = Ok vParams ->
  Required vParams = true
  <-> exists v, v ∈ tagFieldsRaw /\ clauseName v = TAG_FIELD_REQUIRED
                /\ clauseValue v <> "false".
Proof.
  unfold decodeTagFields.
  destruct (decodeTagFields_loop tagFieldsRaw _) as [[vParams' seen']|m] eqn:E;
    simpl; [|discriminate].
  intros Heq. inversion Heq; subst.
  pose proof (decodeTagFields_loop_ok_fresh _ _ _ _ E) as [Hnd _].
  destruct (decodeTagFields_loop_Required _ _ _ _ _ E)
    as [[w [Hw [Hn Hr]]]|[Hall Hr]]; simpl in Hr.
  - split.
    + intros Ht. exists w. split; [done|split; [done|]].
      intros Hfalse. rewrite Hr, bool_decide_eq_true_2 in Ht; done.
    + intros [v [Hv [Hvn Hvv]]].
      assert (v = w) as ->.
      { eapply NoDup_fmap_eq; [exact Hnd|done|done|congruence]. }
      rewrite Hr, bool_decide_eq_false_2; done.
  - split.
    + intros Ht. congruence.
    + intros [v [Hv [Hvn _]]]. exfalso. by apply (Hall v).
Qed.

(** ** The engine: equations of one iteration *)

Section EngineFacts.
Context {RT : Runtime}.

Abbreviation value := (Value float64).
Abbreviation verror := (ValidateError float64).
Abbreviation exit := (Exit float64).

Lemma validateField_untagged i inputData structField (fValue : value) :
  Tag_Lookup structField = None ->
  validateField i inputData structField fValue = (fValue, Done None).
Proof. intros H. unfold validateField. by rewrite H. Qed.

Lemma validateField_decoded i inputData structField (fValue : value) tagValue :
  Tag_Lookup structField = Some tagValue ->
  validateField i inputData structField fValue =
    match decodeTagFields (Split tagValue ",") with
    | Panicked m => (fValue, Panic m)
    | Ok vParams =>
        match inputData !! Name vParams with
        | None =>
            if Required vParams then
              (fValue,
               Done (Some {| ParamName := Name vParams;
                             Code := VALIDATE_ERR_CODE_MISSING_REQ_PARAM;
                             OriginalError :=
                               Some (Errorf_required (Name vParams)) |}))
            else
              match Fields vParams !! TAG_FIELD_DEFAULT with
              | Some v =>
                  match setDefaultValue fValue v with
                  | Panicked m => (fValue, Panic m)
                  | Ok fValue' =>
                      (fValue',
                       evalTagFields structField vParams fValue'
                         (rangeOrder i (Fields vParams)))
                  end
              | None => (fValue, Done None)
              end
        | Some None => (fValue, Panic NilDereference)
        | Some (Some val) =>
            match json_Unmarshal val fValue with
            | (fValue', Some msg) =>
                (fValue',
                 Done (Some {| ParamName := Name vParams;
                               Code := VALIDATE_ERR_CODE_UNPARSABLE;
                               OriginalError := Some (errDecode msg) |}))
            | (fValue', None) =>
                (fValue',
                 evalTagFields structField vParams fValue'
                   (rangeOrder i (Fields vParams)))
            end
        end
    end.
Proof.
  intros H. unfold validateField. rewrite H.
  case_decide as Hlen.
  - exfalso. destruct (Split tagValue ",") eqn:E; [|done].
    by apply Split_not_nil in E.
  - destruct (decodeTagFields _) as [vParams|m]; [|done].
    by destruct (inputData !! Name vParams) as [[val|]|].
Qed.

Lemma validateField_present i inputData structField (fValue fValue' : value)
    tagValue vParams val :
  Tag_Lookup structField = Some tagValue ->
  decodeTagFields (Split tagValue ",") = Ok vParams ->
  inputData !! Name vParams = Some (Some val) ->
  json_Unmarshal val fValue = (fValue', None) ->
  validateField i inputData structField fValue =
    (fValue', evalTagFields structField vParams fValue'
                (rangeOrder i (Fields vParams))).
Proof.
  intros Ht Hd Hin Hj. rewrite (validateField_decoded _ _ _ _ _ Ht).
  by rewrite Hd, Hin, Hj.
Qed.

Lemma validateField_default i inputData structField (fValue fValue' : value)
    tagValue vParams v :
  Tag_Lookup structField = Some tagValue ->
  decodeTagFields (Split tagValue ",") = Ok vParams ->
  inputData !! Name vParams = None ->
  Required vParams = false ->
  Fields vParams !! TAG_FIELD_DEFAULT = Some v ->
  setDefaultValue fValue v = Ok fValue' ->
  validateField i inputData structField fValue =
    (fValue', evalTagFields structField vParams fValue'
                (rangeOrder i (Fields vParams))).
Proof.
  intros Ht Hd Hin Hr Hf Hs. rewrite (validateField_decoded _ _ _ _ _ Ht).
  by rewrite Hd, Hin, Hr, Hf, Hs.
Qed.

(** ** The engine: the constraint loop *)

Lemma evalTagFields_continue structField vParams (fValue : value) order :
  (forall k v, (k, v) ∈ order ->
     evalTagField structField vParams fValue k v = Ok None) ->
  evalTagFields structField vParams fValue order = Done None.
Proof.
  induction order as [|[k v] rest IH]; intros Hall; simpl; [done|].
  rewrite (Hall k v) by (by left).
  apply IH. intros k' v' Hin. apply Hall. by right.
Qed.

Lemma elem_of_rangeOrder i (m : gmap string string) k v :
  (k, v) ∈ rangeOrder i m <-> m !! k = Some v.
Proof. rewrite (rangeOrder_perm i m). apply elem_of_map_to_list. Qed.

Lemma evalTagFields_range_continue i structField vParams (fValue : value)
    (m : gmap string string) :
  (forall k v, m !! k = Some v ->
     evalTagField structField vParams fValue k v = Ok None) ->
  evalTagFields structField vParams fValue (rangeOrder i m) = Done None.
Proof.
  intros Hall. apply evalTagFields_continue.
  intros k v Hin. apply Hall. by apply elem_of_rangeOrder in Hin.
Qed.

(** A constraint either goes on, panics, or returns a length error under
    the field's external name: no other code leaves the loop. *)
Lemma evalTagField_returns structField vParams (fValue : value) k v e :
  evalTagField structField vParams fValue k v = Ok (Some e) ->
  ParamName e = Name vParams
  /\ (Code e = VALIDATE_ERR_CODE_TOO_LONG
      \/ Code e = VALIDATE_ERR_CODE_TOO_SHORT).
Proof.
  unfold evalTagField. repeat case_decide; try discriminate.
  - destruct (checkBound _ _ _ _); simpl; discriminate.
  - unfold checkLen. destruct fValue; try discriminate.
    destruct (ParseUint v); [|discriminate].
    repeat match goal with
           | |- context [if ?b then _ else _] => destruct b
           end; intros Heq; inversion Heq; subst; simpl; auto.
Qed.

Lemma evalTagFields_returns structField vParams (fValue : value) order e :
  evalTagFields structField vParams fValue order = Done (Some e) ->
  ParamName e = Name vParams
  /\ (Code e = VALIDATE_ERR_CODE_TOO_LONG
      \/ Code e = VALIDATE_ERR_CODE_TOO_SHORT).
Proof.
  induction order as [|[k v] rest IH]; simpl; [discriminate|].
  destruct (evalTagField structField vParams fValue k v) as [[e'|]|m] eqn:E.
  - intros Heq. inversion Heq; subst. by eapply evalTagField_returns.
  - apply IH.
  - discriminate.
Qed.

Lemma evalTagFields_no_ArgumentPanic structField vParams (fValue : value)
    order a :
  evalTagFields structField vParams fValue order <> ArgumentPanic a.
Proof.
  induction order as [|[k v] rest IH]; simpl; [discriminate|].
  destruct (evalTagField structField vParams fValue k v) as [[e'|]|m];
    [discriminate|done|discriminate].
Qed.

(** The loop cannot end well when one of the constraints it walks does not
    let it go on. *)
Lemma evalTagFields_blocked structField vParams (fValue : value) order k v :
  (k, v) ∈ order ->
  evalTagField structField vParams fValue k v <> Ok None ->
  evalTagFields structField vParams fValue order <> Done None.
Proof.
  induction order as [|[k' v'] rest IH]; intros Hin Hne; [inversion Hin|].
  simpl.
  destruct (evalTagField structField vParams fValue k' v') as [[e'|]|m] eqn:E;
    [discriminate| |discriminate].
  apply elem_of_cons in Hin as [Heq|Hin].
  - inversion Heq; subst. congruence.
  - by apply IH.
Qed.

(** The loop stops at the first constraint that returns or panics. *)
Lemma evalTagFields_first structField vParams (fValue : value) before k v after :
  (forall k' v', (k', v') ∈ before ->
     evalTagField structField vParams fValue k' v' = Ok None) ->
  evalTagFields structField vParams fValue (before ++ (k, v) :: after) =
    match evalTagField structField vParams fValue k v with
    | Panicked m => Panic m
    | Ok (Some e) => Done (Some e)
    | Ok None => evalTagFields structField vParams fValue after
    end.
Proof.
  induction before as [|[k' v'] rest IH]; intros Hall; simpl; [done|].
  rewrite (Hall k' v') by (by left).
  apply IH. intros k'' v'' Hin. apply Hall. by right.
Qed.

(** When all constraints of the tag but one let the value pass, the loop
    ends the way that one does, in whatever order the map is walked. *)
Lemma evalTagFields_only i structField vParams (fValue : value)
    (m : gmap string string) k x :
  m !! k = Some x ->
  (forall k' v', m !! k' = Some v' -> k' <> k ->
     evalTagField structField vParams fValue k' v' = Ok None) ->
  evalTagFields structField vParams fValue (rangeOrder i m) =
    match evalTagField structField vParams fValue k x with
    | Panicked msg => Panic msg
    | Ok e => Done e
    end.
Proof.
  intros Hk Hothers.
  assert (Hin : (k, x) ∈ rangeOrder i m) by (by apply elem_of_rangeOrder).
  apply list_elem_of_split_l in Hin as [l1 [l2 [Heq Hnotin]]].
  assert (Hsub : forall k' v', (k', v') ∈ l1 \/ (k', v') ∈ l2 ->
            m !! k' = Some v').
  { intros k' v' Hin'. apply (elem_of_rangeOrder i). rewrite Heq.
    apply elem_of_app. destruct Hin' as [H|H]; [by left|right; by right]. }
  assert (Hnotin2 : (k, x) ∉ l2).
  { intros Hin2.
    assert (Hnd : NoDup (rangeOrder i m)).
    { rewrite (rangeOrder_perm i m). apply NoDup_map_to_list. }
    rewrite Heq in Hnd. apply NoDup_app in Hnd as [_ [_ Hnd]].
    apply NoDup_cons in Hnd as [Hnd _]. done. }
  assert (Hpass : forall l : list (string * string),
            (forall k' v', (k', v') ∈ l -> m !! k' = Some v') ->
            (k, x) ∉ l -> forall k' v', (k', v') ∈ l ->
            evalTagField structField vParams fValue k' v' = Ok None).
  { intros l Hl Hn k' v' Hin'. apply Hothers; [by apply Hl|].
    intros ->. apply Hn. specialize (Hl _ _ Hin'). congruence. }
  rewrite Heq, evalTagFields_first.
  - destruct (evalTagField structField vParams fValue k x) as [[e|]|msg];
      try done.
    apply evalTagFields_continue. apply Hpass; [|done].
    intros k' v' H. apply Hsub. by right.
  - apply Hpass; [|done]. intros k' v' H. apply Hsub. by left.
Qed.

(** ** The engine: the loop over the fields *)

Lemma validateFields_app inputData (pre : list (StructField * value)) :
  forall i post,
  validateFields i inputData (pre ++ post)%list =
    match validateFields i inputData pre with
    | (pre', Done None) =>
        let '(post', r) :=
          validateFields (i + length pre) inputData post in
        ((pre' ++ post')%list, r)
    | (pre', r) => ((pre' ++ post)%list, r)
    end.
Proof.
  induction pre as [|[sf fv] pre IH]; intros i post; simpl.
  - replace (i + 0)%nat with i by lia.
    by destruct (validateFields i inputData post).
  - destruct (validateField i inputData sf fv) as [fv' [[e|]|m|a]]; try done.
    rewrite IH.
    destruct (validateFields (S i) inputData pre) as [pre' [[e|]|m|a]];
      try done.
    replace (i + S (length pre))%nat with (S i + length pre)%nat by lia.
    by destruct (validateFields (S i + length pre) inputData post).
Qed.

(** What [Validate] does when the fields before a given one pass. *)
Lemma Validate_reached inputData (pre pre' post : list (StructField * value))
    structField fValue :
  validateFields 0 inputData pre = (pre', Done None) ->
  Validate inputData (PointerToStruct (pre ++ (structField, fValue) :: post)%list) =
    match validateField (length pre) inputData structField fValue with
    | (fValue', Done None) =>
        let '(post', r) := validateFields (S (length pre)) inputData post in
        (PointerToStruct (pre' ++ (structField, fValue') :: post')%list, r)
    | (fValue', r) =>
        (PointerToStruct (pre' ++ (structField, fValue') :: post)%list, r)
    end.
Proof.
  intros Hpre. unfold Validate. rewrite validateFields_app, Hpre. simpl.
  destruct (validateField (length pre) inputData structField fValue)
    as [fv' [[e|]|m|a]]; try done.
  by destruct (validateFields (S (length pre)) inputData post).
Qed.

(** The loop keeps the field table and touches a field only through its
    own iteration. *)
Lemma validateFields_lookup inputData (fields : list (StructField * value)) :
  forall i fields' r n structField fValue,
  validateFields i inputData fields = (fields', r) ->
  fields !! n = Some (structField, fValue) ->
  fields' !! n = Some (structField, fValue)
  \/ fields' !! n
     = Some (structField,
             fst (validateField (i + n) inputData structField fValue)).
Proof.
  induction fields as [|[sf fv] rest IH];
    intros i fields' r n structField fValue Hrun Hn; [done|].
  simpl in Hrun.
  destruct (validateField i inputData sf fv) as [fv' x] eqn:E.
  assert (Hhead : n = 0%nat -> (sf, fv') = (structField,
            fst (validateField (i + n) inputData structField fValue))).
  { intros ->. simpl in Hn. inversion Hn; subst.
    replace (i + 0)%nat with i by lia. by rewrite E. }
  destruct x as [[e|]|m|a].
  - inversion Hrun; subst. destruct n as [|n]; simpl in *.
    + right. f_equal. by apply Hhead.
    + by left.
  - destruct (validateFields (S i) inputData rest) as [rest' r'] eqn:E'.
    inversion Hrun; subst. destruct n as [|n]; simpl in *.
    + right. f_equal. by apply Hhead.
    + replace (i + S n)%nat with (S i + n)%nat by lia.
      by eapply IH.
  - inversion Hrun; subst. destruct n as [|n]; simpl in *.
    + right. f_equal. by apply Hhead.
    + by left.
  - inversion Hrun; subst. destruct n as [|n]; simpl in *.
    + right. f_equal. by apply Hhead.
    + by left.
Qed.

End EngineFacts.

(** ** The panics of an iteration *)

Section PanicFacts.
Context {RT : Runtime}.

Lemma evalTagField_panic_kind structField vParams (fValue : Value float64)
    k v m :
  evalTagField structField vParams fValue k v = Panicked m ->
  isParsePanic m = false.
Proof.
  unfold evalTagField. repeat case_decide; try discriminate.
  - unfold checkBound.
    destruct fValue as [[]|[]|[]| |];
      repeat match goal with
             | |- context [match ?x with Some _ => _ | None => _ end] =>
                 destruct x
             end; simpl; intros Heq; inversion Heq; done.
  - unfold checkLen. destruct fValue; try (intros Heq; inversion Heq; done).
    destruct (ParseUint v); [|intros Heq; inversion Heq; done].
    repeat match goal with
           | |- context [if ?b then _ else _] => destruct b
           end; discriminate.
  - intros Heq. inversion Heq. done.
Qed.

Lemma evalTagFields_panic_kind structField vParams (fValue : Value float64)
    order m :
  evalTagFields structField vParams fValue order = Panic m ->
  isParsePanic m = false.
Proof.
  induction order as [|[k v] rest IH]; simpl; [discriminate|].
  destruct (evalTagField structField vParams fValue k v) as [[e'|]|m'] eqn:E.
  - discriminate.
  - apply IH.
  - intros Heq. inversion Heq; subst. by eapply evalTagField_panic_kind.
Qed.

Lemma setDefaultValue_panic_kind (field : Value float64) rawValue m :
  setDefaultValue field rawValue = Panicked m -> isParsePanic m = false.
Proof.
  unfold setDefaultValue.
  destruct field as [[]|[]|[]| |];
    repeat match goal with
           | |- context [match ?x with Some _ => _ | None => _ end] =>
               destruct x
           end; intros Heq; inversion Heq; done.
Qed.

Lemma validateField_parse_panic i inputData structField
    (fValue : Value float64) m :
  snd (validateField i inputData structField fValue) = Panic m ->
  isParsePanic m = true ->
  exists tagValue, Tag_Lookup structField = Some tagValue
                   /\ decodeTagFields (Split tagValue ",") = Panicked m.
Proof.
  destruct (Tag_Lookup structField) as [tagValue|] eqn:Ht.
  - rewrite (validateField_decoded _ _ _ _ _ Ht).
    intros Hrun Hkind. exists tagValue. split; [done|].
    destruct (decodeTagFields (Split tagValue ",")) as [vParams|m'].
    + exfalso.
      destruct (inputData !! Name vParams) as [[val|]|].
      * destruct (json_Unmarshal val fValue) as [fValue' [msg|]];
          simpl in Hrun; [discriminate|].
        apply evalTagFields_panic_kind in Hrun. congruence.
      * simpl in Hrun. inversion Hrun; subst. discriminate.
      * destruct (Required vParams); [discriminate|].
        destruct (Fields vParams !! TAG_FIELD_DEFAULT) as [v|];
          [|discriminate].
        destruct (setDefaultValue fValue v) as [fValue'|m'] eqn:Es;
          simpl in Hrun.
        -- apply evalTagFields_panic_kind in Hrun. congruence.
        -- inversion Hrun; subst.
           apply setDefaultValue_panic_kind in Es. congruence.
    + simpl in Hrun. by inversion Hrun.
  - rewrite validateField_untagged by done. discriminate.
Qed.

Lemma Rev1_validateField_decoded i inputData structField
    (fValue : Value float64) tagValue m :
  Tag_Lookup structField = Some tagValue ->
  decodeTagFields (Split tagValue ",") = Panicked m ->
  Rev1.validateField i inputData structField fValue = (fValue, Panic m).
Proof.
  intros Ht Hd. unfold Rev1.validateField. rewrite Ht.
  case_decide as Hlen.
  - exfalso. destruct (Split tagValue ",") eqn:E; [|done].
    by apply Split_not_nil in E.
  - by rewrite Hd.
Qed.

Lemma Rev1_validateField_parse_panic i inputData structField
    (fValue : Value float64) m :
  snd (Rev1.validateField i inputData structField fValue) = Panic m ->
  isParsePanic m = true ->
  exists tagValue, Tag_Lookup structField = Some tagValue
                   /\ decodeTagFields (Split tagValue ",") = Panicked m.
Proof.
  unfold Rev1.validateField.
  destruct (Tag_Lookup structField) as [tagValue|] eqn:Ht; [|discriminate].
  case_decide as Hlen.
  { exfalso. destruct (Split tagValue ",") eqn:E; [|done].
    by apply Split_not_nil in E. }
  intros Hrun Hkind. exists tagValue. split; [done|].
  destruct (decodeTagFields (Split tagValue ",")) as [vParams|m'].
  - exfalso.
    destruct (inputData !! Name vParams) as [[val|]|].
    + destruct (match fValue with
                | VOther KPtr _ => (fValue, json_Unmarshal_ptr val fValue)
                | _ => json_Unmarshal val fValue
                end) as [fValue' [msg|]]; simpl in Hrun; [discriminate|].
      destruct (rangeOrder i (Fields vParams)) as [|[k v] rest];
        simpl in Hrun; [discriminate|].
      inversion Hrun; subst. discriminate.
    + simpl in Hrun. inversion Hrun; subst. discriminate.
    + destruct (Required vParams); discriminate.
  - simpl in Hrun. by inversion Hrun.
Qed.

End PanicFacts.

(** ** Claims about the tag parser *)

(** C7. [decodeTagFields] panics exactly when the tag has a clause with an
    empty name, a clause name that occurs twice, a [name] clause with an
    empty value, or a [required] clause whose value is none of the empty
    string, [true] and [false].  In both revisions [Validate] parses the
    tag of a field before it looks the field up in the input, so the panic
    is the same for every input; and a panic with one of the parser's
    messages never comes out of the evaluation of the constraints. *)
Theorem C7_tag_parse_failures :
  (forall tagFieldsRaw,
     (exists m, decodeTagFields tagFieldsRaw = Panicked m) <->
     (exists v, v ∈ tagFieldsRaw /\ clauseName v = "")
     \/ ~ NoDup (clauseName <$> tagFieldsRaw)
     \/ (exists v, v ∈ tagFieldsRaw
                   /\ clauseName v = "name" /\ clauseValue v = "")
     \/ (exists v, v ∈ tagFieldsRaw
                   /\ clauseName v = "required" /\ clauseValue v <> ""
                   /\ clauseValue v <> "true" /\ clauseValue v <> "false"))
  /\ (forall (RT : Runtime) i inputData structField
             (fValue : Value float64) tagValue m,
        Tag_Lookup structField = Some tagValue ->
        decodeTagFields (Split tagValue ",") = Panicked m ->
        validateField i inputData structField fValue = (fValue, Panic m)
        /\ Rev1.validateField i inputData structField fValue
           = (fValue, Panic m))
  /\ (forall (RT : Runtime) i inputData structField
             (fValue : Value float64) m,
        isParsePanic m = true ->
        snd (validateField i inputData structField fValue) = Panic m
        \/ snd (Rev1.validateField i inputData structField fValue) = Panic m ->
        exists tagValue,
          Tag_Lookup structField = Some tagValue
          /\ decodeTagFields (Split tagValue ",") = Panicked m).
Proof.
  split; [|split].
  - intros tagFieldsRaw. rewrite decodeTagFields_panics, Exists_exists.
    unfold malformedClause, TAG_FIELD_NAME, TAG_FIELD_REQUIRED. split.
    + intros [[v [Hv [H|[H|H]]]]|H].
      * left. by exists v.
      * right. right. left. by exists v.
      * right. right. right. by exists v.
      * right. by left.
    + intros [[v [Hv H]]|[H|[[v [Hv H]]|[v [Hv H]]]]].
      * left. exists v. split; [done|by left].
      * by right.
      * left. exists v. split; [done|]. right. by left.
      * left. exists v. split; [done|]. right. by right.
  - intros RT i inputData structField fValue tagValue m Ht Hd. split.
    + rewrite (validateField_decoded _ _ _ _ _ Ht). by rewrite Hd.
    + by eapply Rev1_validateField_decoded.
  - intros RT i inputData structField fValue m Hkind [Hrun|Hrun].
    + by eapply validateField_parse_panic.
    + by eapply Rev1_validateField_parse_panic.
Qed.

Lemma decodeTagFields_Name_empty tagFieldsRaw vParams :
  decodeTagFields tagFieldsRaw = Ok vParams ->
  Name vParams = ""
  <-> (forall v, v ∈ tagFieldsRaw -> clauseName v <> TAG_FIELD_NAME).
Proof.
  intros Hd.
  destruct (decodeTagFields_Name _ _ Hd) as [[v [Hv [Hn [Hx Hne]]]]|[Hall Hx]].
  - split.
    + intros He. congruence.
    + intros Hall. exfalso. by apply (Hall v).
  - done.
Qed.

(** C8. A tag with no [name] clause is accepted and the [FieldSpec] it
    yields has the empty name: the input at which the claim fails. *)
Theorem C8_tag_without_name_clause_is_accepted :
  decodeTagFields (Split "required" ",")
  = Ok {| Name := ""; Required := true; Fields := ∅ |}.
Proof. vm_compute. reflexivity. Qed.

(** ** Claims about absent keys *)

Section AbsentKeys.
Context {RT : Runtime}.

(** C5. When the fields before it pass, a field whose parsed tag is
    required and whose name is not a key of the input makes [Validate]
    return [MissingRequired] under that name, whatever constraints the tag
    has; the field and all later fields are left as they were, whatever
    the later fields and their tags are. *)
Theorem C5_missing_required inputData
    (pre pre' post : list (StructField * Value float64))
    structField fValue tagValue vParams :
  validateFields 0 inputData pre = (pre', Done None) ->
  Tag_Lookup structField = Some tagValue ->
  decodeTagFields (Split tagValue ",") = Ok vParams ->
  Required vParams = true ->
  inputData !! Name vParams = None ->
  Validate inputData
    (PointerToStruct (pre ++ (structField, fValue) :: post)%list)
  = (PointerToStruct (pre' ++ (structField, fValue) :: post)%list,
     Done (Some {| ParamName := Name vParams;
                   Code := VALIDATE_ERR_CODE_MISSING_REQ_PARAM;
                   OriginalError := Some (Errorf_required (Name vParams)) |})).
Proof.
  intros Hpre Ht Hd Hr Hin.
  rewrite (Validate_reached _ _ _ _ _ _ Hpre).
  rewrite (validateField_decoded _ _ _ _ _ Ht).
  by rewrite Hd, Hin, Hr.
Qed.

Lemma validateField_skipped i inputData structField (fValue : Value float64) :
  Tag_Lookup structField = None
  \/ (exists tagValue vParams,
        Tag_Lookup structField = Some tagValue
        /\ decodeTagFields (Split tagValue ",") = Ok vParams
        /\ Required vParams = false
        /\ Fields vParams !! TAG_FIELD_DEFAULT = None
        /\ inputData !! Name vParams = None) ->
  validateField i inputData structField fValue = (fValue, Done None).
Proof.
  intros [Ht|[tagValue [vParams [Ht [Hd [Hr [Hf Hin]]]]]]].
  - by apply validateField_untagged.
  - rewrite (validateField_decoded _ _ _ _ _ Ht).
    by rewrite Hd, Hin, Hr, Hf.
Qed.

Lemma Rev1_validateField_skipped i inputData structField
    (fValue : Value float64) :
  Tag_Lookup structField = None
  \/ (exists tagValue vParams,
        Tag_Lookup structField = Some tagValue
        /\ decodeTagFields (Split tagValue ",") = Ok vParams
        /\ Required vParams = false
        /\ inputData !! Name vParams = None) ->
  Rev1.validateField i inputData structField fValue = (fValue, Done None).
Proof.
  unfold Rev1.validateField.
  intros [Ht|[tagValue [vParams [Ht [Hd [Hr Hin]]]]]]; rewrite Ht; [done|].
  case_decide as Hlen.
  - exfalso. destruct (Split tagValue ",") eqn:E; [|done].
    by apply Split_not_nil in E.
  - by rewrite Hd, Hin, Hr.
Qed.

Lemma Rev1_validateFields_lookup inputData
    (fields : list (StructField * Value float64)) :
  forall i fields' r n structField fValue,
  Rev1.validateFields i inputData fields = (fields', r) ->
  fields !! n = Some (structField, fValue) ->
  fields' !! n = Some (structField, fValue)
  \/ fields' !! n
     = Some (structField,
             fst (Rev1.validateField (i + n) inputData structField fValue)).
Proof.
  induction fields as [|[sf fv] rest IH];
    intros i fields' r n structField fValue Hrun Hn; [done|].
  simpl in Hrun.
  destruct (Rev1.validateField i inputData sf fv) as [fv' x] eqn:E.
  assert (Hhead : n = 0%nat -> (sf, fv') = (structField,
            fst (Rev1.validateField (i + n) inputData structField fValue))).
  { intros ->. simpl in Hn. inversion Hn; subst.
    replace (i + 0)%nat with i by lia. by rewrite E. }
  destruct x as [[e|]|m|a];
    try (inversion Hrun; subst; destruct n as [|n]; simpl in *;
         [right; f_equal; by apply Hhead | by left]).
  destruct (Rev1.validateFields (S i) inputData rest) as [rest' r'] eqn:E'.
  inversion Hrun; subst. destruct n as [|n]; simpl in *.
  - right. f_equal. by apply Hhead.
  - replace (i + S n)%nat with (S i + n)%nat by lia.
    by eapply IH.
Qed.

(** C10. A field with no [validate] tag, or with a tag that parses, is not
    required, has no [default] and whose name is not a key of the input:
    its iteration changes nothing and goes on to the next field, and
    after the call the field holds what it held before, however the call
    ends.  This holds in both revisions. *)
Theorem C10_absent_optional_field_untouched inputData
    (fields : list (StructField * Value float64)) n structField fValue :
  fields !! n = Some (structField, fValue) ->
  Tag_Lookup structField = None
  \/ (exists tagValue vParams,
        Tag_Lookup structField = Some tagValue
        /\ decodeTagFields (Split tagValue ",") = Ok vParams
        /\ Required vParams = false
        /\ Fields vParams !! TAG_FIELD_DEFAULT = None
        /\ inputData !! Name vParams = None) ->
  (forall i, validateField i inputData structField fValue
             = (fValue, Done None))
  /\ (exists fields' r,
        Validate inputData (PointerToStruct fields)
        = (PointerToStruct fields', r)
        /\ fields' !! n = Some (structField, fValue))
  /\ (forall i, Rev1.validateField i inputData structField fValue
                = (fValue, Done None))
  /\ (exists fields' r,
        Rev1.Validate inputData (PointerToStruct fields)
        = (PointerToStruct fields', r)
        /\ fields' !! n = Some (structField, fValue)).
Proof.
  intros Hn Hskip.
  assert (H1 : forall i, validateField i inputData structField fValue
                         = (fValue, Done None)).
  { intros i. by apply validateField_skipped. }
  assert (H2 : forall i, Rev1.validateField i inputData structField fValue
                         = (fValue, Done None)).
  { intros i. apply Rev1_validateField_skipped.
    destruct Hskip as [Ht|[tagValue [vParams [Ht [Hd [Hr [_ Hin]]]]]]];
      [by left|right]. by exists tagValue, vParams. }
  split; [done|split; [|split; [done|]]].
  - unfold Validate.
    destruct (validateFields 0 inputData fields) as [fields' r] eqn:E.
    exists fields', r. split; [done|].
    destruct (validateFields_lookup _ _ _ _ _ _ _ _ E Hn) as [H|H]; [done|].
    by rewrite H1 in H.
  - unfold Rev1.Validate.
    destruct (Rev1.validateFields 0 inputData fields) as [fields' r] eqn:E.
    exists fields', r. split; [done|].
    destruct (Rev1_validateFields_lookup _ _ _ _ _ _ _ _ E Hn) as [H|H];
      [done|].
    by rewrite H2 in H.
Qed.

Lemma setDefaultValue_coerced (field field' : Value float64) rawValue :
  setDefaultValue field rawValue = Ok field'
  <-> coercedDefault field rawValue = Some field'.
Proof.
  unfold setDefaultValue, coercedDefault.
  destruct field as [[]|[]|[]| |[]]; simpl;
    try (split; intros H; discriminate H);
    try (destruct (ParseInt rawValue); simpl; split; intros H;
         inversion H; done);
    try (destruct (ParseUint rawValue); simpl; split; intros H;
         inversion H; done);
    try (destruct (ParseFloat rawValue _); simpl; split; intros H;
         inversion H; done).
Qed.

(** C6. When the fields before it pass, a field that is not required, has
    a [default] clause, is of declared type [int], [uint], [float32],
    [float64] or [string] with a default that reads as a value of that
    type, and whose name is not a key of the input: after the call the
    field holds exactly the coerced default, however the call ends; its
    iteration does not report [MissingRequired]; and when every constraint
    of its tag lets the default pass and the later fields pass, the call
    returns [nil]. *)
Theorem C6_default_assigned inputData
    (pre pre' post : list (StructField * Value float64))
    structField fValue fValue' tagValue vParams rawValue :
  validateFields 0 inputData pre = (pre', Done None) ->
  Tag_Lookup structField = Some tagValue ->
  decodeTagFields (Split tagValue ",") = Ok vParams ->
  Required vParams = false ->
  Fields vParams !! TAG_FIELD_DEFAULT = Some rawValue ->
  inputData !! Name vParams = None ->
  coercedDefault fValue rawValue = Some fValue' ->
  (exists post' r,
     Validate inputData
       (PointerToStruct (pre ++ (structField, fValue) :: post)%list)
     = (PointerToStruct (pre' ++ (structField, fValue') :: post')%list, r))
  /\ (forall e,
        snd (validateField (length pre) inputData structField fValue)
        = Done (Some e) ->
        Code e <> VALIDATE_ERR_CODE_MISSING_REQ_PARAM)
  /\ ((forall k v, Fields vParams !! k = Some v ->
         evalTagField structField vParams fValue' k v = Ok None) ->
      forall post',
        validateFields (S (length pre)) inputData post = (post', Done None) ->
        Validate inputData
          (PointerToStruct (pre ++ (structField, fValue) :: post)%list)
        = (PointerToStruct (pre' ++ (structField, fValue') :: post')%list,
           Done None)).
Proof.
  intros Hpre Ht Hd Hr Hf Hin Hc.
  apply setDefaultValue_coerced in Hc.
  pose proof (validateField_default (length pre) _ _ _ _ _ _ _
                Ht Hd Hin Hr Hf Hc) as Hstep.
  rewrite (Validate_reached _ _ _ _ _ _ Hpre), Hstep.
  split; [|split].
  - destruct (evalTagFields structField vParams fValue'
                (rangeOrder (length pre) (Fields vParams)))
      as [[e|]|m|a]; try by eexists _, _.
    destruct (validateFields (S (length pre)) inputData post) as [post' r].
    by eexists _, _.
  - intros e He. simpl in He.
    apply evalTagFields_returns in He as [_ [He|He]]; rewrite He; done.
  - intros Hall post' Hpost.
    rewrite (evalTagFields_range_continue _ _ _ _ _ Hall).
    by rewrite Hpost.
Qed.

End AbsentKeys.

Lemma C5_missing_required_witness :
  @Validate scalarRuntime ∅
    (PointerToStruct
       [({| FName := "Count"; Tag_Lookup := Some "name=count,required" |},
         VInt KInt 0)])
  = (PointerToStruct
       [({| FName := "Count"; Tag_Lookup := Some "name=count,required" |},
         VInt KInt 0)],
     Done (Some {| ParamName := "count";
                   Code := VALIDATE_ERR_CODE_MISSING_REQ_PARAM;
                   OriginalError := Some (Errorf_required "count") |})).
Proof.
  apply (C5_missing_required (RT := scalarRuntime) ∅ [] [] []
           {| FName := "Count"; Tag_Lookup := Some "name=count,required" |}
           (VInt KInt 0) "name=count,required"
           {| Name := "count"; Required := true; Fields := ∅ |}).
  - reflexivity.
  - reflexivity.
  - vm_compute. reflexivity.
  - reflexivity.
  - reflexivity.
Defined.

Lemma C10_absent_optional_field_untouched_witness :
  exists fields' r,
    @Validate scalarRuntime ∅
      (PointerToStruct
         [({| FName := "Count"; Tag_Lookup := Some "name=count,min=1" |},
           VInt KInt 7)])
    = (PointerToStruct fields', r)
    /\ fields' !! 0%nat
       = Some ({| FName := "Count"; Tag_Lookup := Some "name=count,min=1" |},
               VInt KInt 7).
Proof.
  refine (proj1 (proj2
    (C10_absent_optional_field_untouched (RT := scalarRuntime) ∅
       [({| FName := "Count"; Tag_Lookup := Some "name=count,min=1" |},
         VInt KInt 7)] 0
       {| FName := "Count"; Tag_Lookup := Some "name=count,min=1" |}
       (VInt KInt 7) _ _))).
  - reflexivity.
  - right. exists "name=count,min=1".
    exists {| Name := "count"; Required := false;
              Fields := {[ "min" := "1" ]} |}.
    split; [reflexivity|].
    split; [vm_compute; reflexivity|].
    split; [reflexivity|].
    split; [vm_compute; reflexivity|].
    reflexivity.
Defined.

Lemma C6_default_assigned_witness :
  @Validate scalarRuntime ∅
    (PointerToStruct
       [({| FName := "Age"; Tag_Lookup := Some "name=age,default=18" |},
         VInt KInt 0)])
  = (PointerToStruct
       [({| FName := "Age"; Tag_Lookup := Some "name=age,default=18" |},
         VInt KInt 18)],
     Done None).
Proof.
  refine (proj2 (proj2
    (C6_default_assigned (RT := scalarRuntime) ∅ [] [] []
       {| FName := "Age"; Tag_Lookup := Some "name=age,default=18" |}
       (VInt KInt 0) (VInt KInt 18) "name=age,default=18"
       {| Name := "age"; Required := false;
          Fields := {[ "default" := "18" ]} |}
       "18" _ _ _ _ _ _ _)) _ [] _).
  - reflexivity.
  - reflexivity.
  - vm_compute. reflexivity.
  - reflexivity.
  - vm_compute. reflexivity.
  - reflexivity.
  - reflexivity.
  - intros k v H. simpl in H.
    apply lookup_singleton_Some in H as [<- <-]. reflexivity.
  - reflexivity.
Defined.

(** ** Claims about present keys *)

Section PresentKeys.
Context {RT : Runtime}.

Lemma rangeOrder_singleton i k v : rangeOrder i {[ k := v ]} = [(k, v)].
Proof.
  apply Permutation_singleton_r.
  rewrite rangeOrder_perm. by rewrite map_to_list_singleton.
Qed.

Lemma Validate_one inputData structField (fValue : Value float64) :
  Validate inputData (PointerToStruct [(structField, fValue)])
  = (PointerToStruct
       [(structField, fst (validateField 0 inputData structField fValue))],
     snd (validateField 0 inputData structField fValue)).
Proof.
  unfold Validate. simpl.
  by destruct (validateField 0 inputData structField fValue)
    as [fv' [[e|]|m|a]].
Qed.

(** The codes with which an iteration, and so a call, can return. *)
Lemma validateField_codes i inputData structField (fValue : Value float64) e :
  snd (validateField i inputData structField fValue) = Done (Some e) ->
  Code e = VALIDATE_ERR_CODE_MISSING_REQ_PARAM
  \/ Code e = VALIDATE_ERR_CODE_UNPARSABLE
  \/ Code e = VALIDATE_ERR_CODE_TOO_LONG
  \/ Code e = VALIDATE_ERR_CODE_TOO_SHORT.
Proof.
  destruct (Tag_Lookup structField) as [tagValue|] eqn:Ht.
  - rewrite (validateField_decoded _ _ _ _ _ Ht).
    destruct (decodeTagFields (Split tagValue ",")) as [vParams|m];
      [|discriminate].
    destruct (inputData !! Name vParams) as [[val|]|].
    + destruct (json_Unmarshal val fValue) as [fValue' [msg|]]; simpl.
      * intros Heq. inversion Heq; subst. simpl. auto.
      * intros Heq. apply evalTagFields_returns in Heq as [_ [H|H]]; auto.
    + discriminate.
    + destruct (Required vParams); simpl.
      * intros Heq. inversion Heq; subst. simpl. auto.
      * destruct (Fields vParams !! TAG_FIELD_DEFAULT) as [v|];
          [|discriminate].
        destruct (setDefaultValue fValue v) as [fValue'|m]; simpl;
          [|discriminate].
        intros Heq. apply evalTagFields_returns in Heq as [_ [H|H]]; auto.
  - rewrite validateField_untagged by done. discriminate.
Qed.

Lemma validateFields_codes inputData
    (fields : list (StructField * Value float64)) :
  forall i fields' e,
  validateFields i inputData fields = (fields', Done (Some e)) ->
  Code e = VALIDATE_ERR_CODE_MISSING_REQ_PARAM
  \/ Code e = VALIDATE_ERR_CODE_UNPARSABLE
  \/ Code e = VALIDATE_ERR_CODE_TOO_LONG
  \/ Code e = VALIDATE_ERR_CODE_TOO_SHORT.
Proof.
  induction fields as [|[sf fv] rest IH]; intros i fields' e; simpl;
    [discriminate|].
  pose proof (validateField_codes i inputData sf fv) as Hc.
  destruct (validateField i inputData sf fv) as [fv' [[e'|]|m|a]];
    simpl in Hc.
  - intros Heq. inversion Heq; subst. by apply Hc.
  - destruct (validateFields (S i) inputData rest) as [rest' r] eqn:E.
    intros Heq. inversion Heq; subst. by eapply IH.
  - discriminate.
  - discriminate.
Qed.

(** No call of [Validate] returns [TooSmall], [TooBig] or [InvalidEnum]. *)
Lemma Validate_codes inputData outputStruct outputStruct' e :
  Validate inputData outputStruct = (outputStruct', Done (Some e)) ->
  Code e <> VALIDATE_ERR_CODE_TOO_SMALL
  /\ Code e <> VALIDATE_ERR_CODE_TOO_BIG
  /\ Code e <> VALIDATE_ERR_CODE_INVALID.
Proof.
  unfold Validate. destruct outputStruct as [| | |fields]; try discriminate.
  destruct (validateFields 0 inputData fields) as [fields' r] eqn:E.
  intros Heq. inversion Heq; subst.
  apply validateFields_codes in E as [H|[H|[H|H]]]; rewrite H; done.
Qed.

(** The [min]/[max] case does work out the code the claim expects, for the
    kinds it handles, before it drops it. *)
Lemma checkBound_int structField k i tagName tagRawVal val :
  k <> KInt16 ->
  ParseInt tagRawVal = Some val ->
  checkBound structField (VInt k i) tagName tagRawVal
  = Ok (if bool_decide (tagName = TAG_FIELD_MAX) && (val <? i)
        then VALIDATE_ERR_CODE_TOO_BIG
        else if bool_decide (tagName = TAG_FIELD_MIN) && (i <? val)
             then VALIDATE_ERR_CODE_TOO_SMALL
             else VALIDATE_ERR_CODE_UNKNOWN,
        BInt val).
Proof.
  intros Hk Hp. unfold checkBound. destruct k; try done; by rewrite Hp.
Qed.

(** The kinds on which [min] and [max] hit the "cannot be applied" panic:
    all but the ten the switch lists. *)
Lemma checkBound_cannot_apply structField (fValue : Value float64)
    tagName tagRawVal :
  checkBound structField fValue tagName tagRawVal
    = Panicked (NotIntegerOrFloat tagName (FName structField))
  <-> Kind_of fValue ∉
        [reflect.Int; reflect.Int8; reflect.Int32; reflect.Int64;
         reflect.Uint; reflect.Uint8; reflect.Uint32; reflect.Uint64;
         reflect.Float32; reflect.Float64].
Proof.
  unfold checkBound.
  destruct fValue as [[]|[]|[]| |[]]; simpl;
    repeat match goal with
           | |- context [match ?x with Some _ => _ | None => _ end] =>
               destruct x
           end;
    (split; [intros H; try discriminate H; set_solver
            |intros H; try reflexivity; exfalso; apply H; set_solver]).
Qed.

(** The length constraints judge the length against the bound as long as
    the bound is below [2^63]. *)
Lemma checkLen_in_range structField vParams s tagName tagRawVal reqLen :
  ParseUint tagRawVal = Some reqLen ->
  reqLen < cutoffInt64 ->
  (tagName = TAG_FIELD_MAX_LEN ->
   checkLen (RT := RT) structField vParams (VString s) tagName tagRawVal
   = if reqLen <? Z.of_nat (String.length s)
     then Ok (Some {| ParamName := Name vParams;
                      Code := VALIDATE_ERR_CODE_TOO_LONG;
                      OriginalError :=
                        Some (Errorf_too_long (Name vParams) reqLen) |})
     else Ok None)
  /\ (tagName = TAG_FIELD_MIN_LEN ->
      checkLen (RT := RT) structField vParams (VString s) tagName tagRawVal
      = if Z.of_nat (String.length s) <? reqLen
        then Ok (Some {| ParamName := Name vParams;
                         Code := VALIDATE_ERR_CODE_TOO_SHORT;
                         OriginalError :=
                           Some (Errorf_too_short (Name vParams) reqLen) |})
        else Ok None).
Proof.
  intros Hp Hlt. unfold checkLen. rewrite Hp.
  assert (Hge : 0 <= reqLen) by (by apply ParseUint_range in Hp as [? _]).
  assert (Hid : to_int reqLen = reqLen).
  { unfold to_int, cutoffInt64 in *. rewrite Z.mod_small; lia. }
  rewrite Hid.
  split; intros ->; unfold TAG_FIELD_MAX_LEN, TAG_FIELD_MIN_LEN; simpl; done.
Qed.

(** A length constraint with a bound below [2^63], on a field that is
    reached and decoded, when the other constraints of the tag let the
    value pass: [Validate] returns [TooLong] or [TooShort] exactly on a
    strict violation and leaves the later fields alone. *)
Lemma Validate_length_constraint inputData
    (pre pre' post : list (StructField * Value float64))
    structField fValue tagValue vParams val s k tagRawVal reqLen :
  validateFields 0 inputData pre = (pre', Done None) ->
  Tag_Lookup structField = Some tagValue ->
  decodeTagFields (Split tagValue ",") = Ok vParams ->
  inputData !! Name vParams = Some (Some val) ->
  json_Unmarshal val fValue = (VString s, None) ->
  Fields vParams !! k = Some tagRawVal ->
  k = TAG_FIELD_MAX_LEN \/ k = TAG_FIELD_MIN_LEN ->
  ParseUint tagRawVal = Some reqLen ->
  reqLen < cutoffInt64 ->
  (forall k' v', Fields vParams !! k' = Some v' -> k' <> k ->
     evalTagField structField vParams (VString s) k' v' = Ok None) ->
  Validate inputData
    (PointerToStruct (pre ++ (structField, fValue) :: post)%list)
  = if bool_decide (k = TAG_FIELD_MAX_LEN)
       && (reqLen <? Z.of_nat (String.length s)) then
      (PointerToStruct (pre' ++ (structField, VString s) :: post)%list,
       Done (Some {| ParamName := Name vParams;
                     Code := VALIDATE_ERR_CODE_TOO_LONG;
                     OriginalError :=
                       Some (Errorf_too_long (Name vParams) reqLen) |}))
    else if bool_decide (k = TAG_FIELD_MIN_LEN)
            && (Z.of_nat (String.length s) <? reqLen) then
      (PointerToStruct (pre' ++ (structField, VString s) :: post)%list,
       Done (Some {| ParamName := Name vParams;
                     Code := VALIDATE_ERR_CODE_TOO_SHORT;
                     OriginalError :=
                       Some (Errorf_too_short (Name vParams) reqLen) |}))
    else
      let '(post', r) := validateFields (S (length pre)) inputData post in
      (PointerToStruct (pre' ++ (structField, VString s) :: post')%list, r).
Proof.
  intros Hpre Ht Hd Hin Hj Hk Hkind Hp Hlt Hothers.
  rewrite (Validate_reached _ _ _ _ _ _ Hpre).
  rewrite (validateField_present _ _ _ _ _ _ _ _ Ht Hd Hin Hj).
  rewrite (evalTagFields_only _ _ _ _ _ _ _ Hk Hothers).
  destruct (checkLen_in_range structField vParams s k tagRawVal reqLen Hp Hlt)
    as [Hmax Hmin].
  destruct Hkind as [->| ->].
  - change (evalTagField structField vParams (VString s)
              TAG_FIELD_MAX_LEN tagRawVal)
      with (checkLen structField vParams (VString s)
              TAG_FIELD_MAX_LEN tagRawVal).
    rewrite (Hmax eq_refl). rewrite bool_decide_eq_true_2 by done. simpl.
    destruct (reqLen <? Z.of_nat (String.length s)); [done|].
    by destruct (validateFields (S (length pre)) inputData post).
  - change (evalTagField structField vParams (VString s)
              TAG_FIELD_MIN_LEN tagRawVal)
      with (checkLen structField vParams (VString s)
              TAG_FIELD_MIN_LEN tagRawVal).
    rewrite (Hmin eq_refl). rewrite bool_decide_eq_false_2 by done.
    rewrite bool_decide_eq_true_2 by done. simpl.
    destruct (Z.of_nat (String.length s) <? reqLen); [done|].
    by destruct (validateFields (S (length pre)) inputData post).
Qed.

End PresentKeys.

(** ** Claims about the constraints *)

Example decode_scenarioC :
  decodeTagFields (Split "name=color,oneof=red|green|blue" ",")
  = Ok {| Name := "color"; Required := false;
          Fields := {[ "oneof" := "red|green|blue" ]} |}.
Proof. vm_compute. reflexivity. Qed.

Example decode_scenarioB :
  decodeTagFields (Split "name=age,default=18" ",")
  = Ok {| Name := "age"; Required := false;
          Fields := {[ "default" := "18" ]} |}.
Proof. vm_compute. reflexivity. Qed.

Example decode_min_only :
  decodeTagFields (Split "name=a,min=0" ",")
  = Ok {| Name := "a"; Required := false; Fields := {[ "min" := "0" ]} |}.
Proof. vm_compute. reflexivity. Qed.

Example decode_maxLen_top :
  decodeTagFields (Split "name=bio,maxLen=18446744073709551615" ",")
  = Ok {| Name := "bio"; Required := false;
          Fields := {[ "maxLen" := "18446744073709551615" ]} |}.
Proof. vm_compute. reflexivity. Qed.

Example decode_minLen_cutoff :
  decodeTagFields (Split "name=bio,minLen=9223372036854775808" ",")
  = Ok {| Name := "bio"; Required := false;
          Fields := {[ "minLen" := "9223372036854775808" ]} |}.
Proof. vm_compute. reflexivity. Qed.

Section Constraints.
Context {RT : Runtime}.

(** One iteration on a present key that decodes, given the parsed tag. *)
Ltac decoded_with Hd Hin Hj :=
  erewrite validateField_present;
    [|reflexivity|exact Hd|exact Hin|exact Hj].

(** Scenario B on every runtime: the default 18 is stored and the call
    returns [nil]. *)
Example scenarioB inputData old :
  inputData !! "age" = None ->
  Validate inputData
    (PointerToStruct
       [({| FName := "Age"; Tag_Lookup := Some "name=age,default=18" |},
         VInt KInt old)])
  = (PointerToStruct
       [({| FName := "Age"; Tag_Lookup := Some "name=age,default=18" |},
         VInt KInt 18)],
     Done None).
Proof.
  intros Hin. rewrite Validate_one.
  erewrite validateField_default;
    [|reflexivity|exact decode_scenarioB|exact Hin|reflexivity
     |reflexivity|reflexivity].
  simpl. by rewrite rangeOrder_singleton.
Qed.

(** In scenario A the [max] case does reach the code [TooBig] for the
    value 200. *)
Example checkBound_scenarioA structField :
  checkBound structField (VInt KInt 200) "max" "150"
  = Ok (VALIDATE_ERR_CODE_TOO_BIG, BInt 150).
Proof. reflexivity. Qed.

(** C1. Scenario A on the code: with the tag
    [name=age,required,min=0,max=150] on an [int] field and an input whose
    key [age] decodes to 200, [Validate] stores 200 and returns [nil]; the
    error value the [max] case builds is not returned.  (By
    [Validate_codes] no call returns [TooSmall] or [TooBig] at all.) *)
Theorem C1_scenarioA_200_is_accepted inputData raw old :
  inputData !! "age" = Some (Some raw) ->
  json_Unmarshal raw (VInt KInt old) = (VInt KInt 200, None) ->
  Validate inputData
    (PointerToStruct
       [({| FName := "Age";
            Tag_Lookup := Some "name=age,required,min=0,max=150" |},
         VInt KInt old)])
  = (PointerToStruct
       [({| FName := "Age";
            Tag_Lookup := Some "name=age,required,min=0,max=150" |},
         VInt KInt 200)],
     Done None).
Proof.
  intros Hin Hj. rewrite Validate_one.
  decoded_with decode_scenarioA Hin Hj.
  simpl. rewrite evalTagFields_range_continue; [done|].
  intros k v H.
  apply lookup_insert_Some in H as [[<- <-]|[_ H]]; [reflexivity|].
  apply lookup_insert_Some in H as [[<- <-]|[_ H]]; [reflexivity|].
  by rewrite lookup_empty in H.
Qed.

(** The [oneof] case has no body. *)
Lemma evalTagField_oneof structField vParams (fValue : Value float64)
    tagRawVal :
  evalTagField structField vParams fValue TAG_FIELD_ONE_OF tagRawVal = Ok None.
Proof. reflexivity. Qed.

(** C2. Scenario C on the code: with the tag
    [name=color,oneof=red|green|blue] on a [string] field and an input
    whose key [color] decodes to [purple], [Validate] stores the value and
    returns [nil].  (By [Validate_codes] no call returns [InvalidEnum].) *)
Theorem C2_scenarioC_purple_is_accepted inputData raw old :
  inputData !! "color" = Some (Some raw) ->
  json_Unmarshal raw (VString old) = (VString "purple", None) ->
  Validate inputData
    (PointerToStruct
       [({| FName := "Color";
            Tag_Lookup := Some "name=color,oneof=red|green|blue" |},
         VString old)])
  = (PointerToStruct
       [({| FName := "Color";
            Tag_Lookup := Some "name=color,oneof=red|green|blue" |},
         VString "purple")],
     Done None).
Proof.
  intros Hin Hj. rewrite Validate_one.
  decoded_with decode_scenarioC Hin Hj.
  simpl. by rewrite rangeOrder_singleton.
Qed.

(** C9. A field of type [int16] with a [min] clause: once its key is
    decoded, the constraint loop panics with "cannot be applied ... not an
    integer or float".  (By [checkBound_cannot_apply] the same holds for
    [uint16] and [uintptr].) *)
Theorem C9_min_on_int16_panics inputData raw old :
  inputData !! "a" = Some (Some raw) ->
  json_Unmarshal raw (VInt KInt16 old) = (VInt KInt16 1, None) ->
  Validate inputData
    (PointerToStruct
       [({| FName := "A"; Tag_Lookup := Some "name=a,min=0" |},
         VInt KInt16 old)])
  = (PointerToStruct
       [({| FName := "A"; Tag_Lookup := Some "name=a,min=0" |},
         VInt KInt16 1)],
     Panic (NotIntegerOrFloat "min" "A")).
Proof.
  intros Hin Hj. rewrite Validate_one.
  decoded_with decode_min_only Hin Hj.
  simpl. by rewrite rangeOrder_singleton.
Qed.

(** C4. Length bounds from [2^63] on: [int(reqLen)] is negative, so a
    one-byte string is reported [TooLong] against the bound [2^64 - 1] and
    passes the bound [minLen=2^63].  (Below [2^63] the comparison is the
    claimed one, [checkLen_in_range].) *)
Theorem C4_length_bound_wraps inputData raw old :
  inputData !! "bio" = Some (Some raw) ->
  json_Unmarshal raw (VString old) = (VString "a", None) ->
  Validate inputData
    (PointerToStruct
       [({| FName := "Bio";
            Tag_Lookup := Some "name=bio,maxLen=18446744073709551615" |},
         VString old)])
  = (PointerToStruct
       [({| FName := "Bio";
            Tag_Lookup := Some "name=bio,maxLen=18446744073709551615" |},
         VString "a")],
     Done (Some {| ParamName := "bio";
                   Code := VALIDATE_ERR_CODE_TOO_LONG;
                   OriginalError :=
                     Some (Errorf_too_long "bio" 18446744073709551615) |}))
  /\ Validate inputData
       (PointerToStruct
          [({| FName := "Bio";
               Tag_Lookup := Some "name=bio,minLen=9223372036854775808" |},
            VString old)])
     = (PointerToStruct
          [({| FName := "Bio";
               Tag_Lookup := Some "name=bio,minLen=9223372036854775808" |},
            VString "a")],
        Done None).
Proof.
  intros Hin Hj. split; rewrite Validate_one.
  - decoded_with decode_maxLen_top Hin Hj.
    simpl. by rewrite rangeOrder_singleton.
  - decoded_with decode_minLen_cutoff Hin Hj.
    simpl. by rewrite rangeOrder_singleton.
Qed.

Lemma evalTagField_unknown structField vParams (fValue : Value float64) k x :
  k ∉ recognized ->
  evalTagField structField vParams fValue k x = Panicked (UnknownTagField k).
Proof.
  intros Hk. unfold evalTagField.
  repeat case_decide; try done; exfalso; apply Hk; unfold recognized;
    set_solver.
Qed.

(** C3, as amended.  For a field that [Validate] reaches and whose tag
    parses and has a clause with a name outside the recognized set:
    - if the key is present in the input, or the field is optional with a
      [default] clause, the call does not return [nil]: it panics, or
      returns [Unparsable], [TooLong] or [TooShort] under the field's name;
    - it panics with "Unknown tag field" on that name when the value was
      decoded (or the default set) and the other constraints of the tag let
      the value pass;
    - if the key is absent and the tag has no [default], the constraints
      are not evaluated: the call returns [MissingRequired] when the field
      is required and goes on to the next field otherwise. *)
Theorem C3_unknown_name_when_evaluated inputData
    (pre pre' post : list (StructField * Value float64))
    structField fValue tagValue vParams v :
  validateFields 0 inputData pre = (pre', Done None) ->
  Tag_Lookup structField = Some tagValue ->
  decodeTagFields (Split tagValue ",") = Ok vParams ->
  v ∈ Split tagValue "," ->
  clauseName v ∉ recognized ->
  (is_Some (inputData !! Name vParams)
   \/ (Required vParams = false
       /\ is_Some (Fields vParams !! TAG_FIELD_DEFAULT)) ->
   match snd (Validate inputData
                (PointerToStruct (pre ++ (structField, fValue) :: post)%list))
   with
   | Panic _ => True
   | Done (Some e) =>
       ParamName e = Name vParams
       /\ (Code e = VALIDATE_ERR_CODE_UNPARSABLE
           \/ Code e = VALIDATE_ERR_CODE_TOO_LONG
           \/ Code e = VALIDATE_ERR_CODE_TOO_SHORT)
   | _ => False
   end)
  /\ (forall fValue',
        (exists val, inputData !! Name vParams = Some (Some val)
                     /\ json_Unmarshal val fValue = (fValue', None))
        \/ (inputData !! Name vParams = None /\ Required vParams = false
            /\ exists d, Fields vParams !! TAG_FIELD_DEFAULT = Some d
                         /\ setDefaultValue fValue d = Ok fValue') ->
        (forall k' v', Fields vParams !! k' = Some v' -> k' <> clauseName v ->
           evalTagField structField vParams fValue' k' v' = Ok None) ->
        Validate inputData
          (PointerToStruct (pre ++ (structField, fValue) :: post)%list)
        = (PointerToStruct (pre' ++ (structField, fValue') :: post)%list,
           Panic (UnknownTagField (clauseName v))))
  /\ (inputData !! Name vParams = None ->
      Fields vParams !! TAG_FIELD_DEFAULT = None ->
      Validate inputData
        (PointerToStruct (pre ++ (structField, fValue) :: post)%list)
      = if Required vParams then
          (PointerToStruct (pre' ++ (structField, fValue) :: post)%list,
           Done (Some {| ParamName := Name vParams;
                         Code := VALIDATE_ERR_CODE_MISSING_REQ_PARAM;
                         OriginalError :=
                           Some (Errorf_required (Name vParams)) |}))
        else
          let '(post', r) :=
            validateFields (S (length pre)) inputData post in
          (PointerToStruct (pre' ++ (structField, fValue) :: post')%list, r)).
Proof.
  intros Hpre Ht Hd Hv Hk.
  assert (Hf : Fields vParams !! clauseName v = Some (clauseValue v)).
  { apply (decodeTagFields_Fields _ _ _ _ Hd). exists v.
    repeat split; try done; intros Heq; apply Hk; rewrite Heq;
      unfold recognized; set_solver. }
  assert (Hblocked : forall fValue',
            match evalTagFields structField vParams fValue'
                    (rangeOrder (length pre) (Fields vParams)) with
            | Panic _ => True
            | Done (Some e) =>
                ParamName e = Name vParams
                /\ (Code e = VALIDATE_ERR_CODE_UNPARSABLE
                    \/ Code e = VALIDATE_ERR_CODE_TOO_LONG
                    \/ Code e = VALIDATE_ERR_CODE_TOO_SHORT)
            | _ => False
            end).
  { intros fValue'.
    pose proof (evalTagFields_blocked structField vParams fValue'
                  (rangeOrder (length pre) (Fields vParams))
                  (clauseName v) (clauseValue v)) as Hb.
    pose proof (evalTagFields_returns structField vParams fValue'
                  (rangeOrder (length pre) (Fields vParams))) as Hr.
    pose proof (evalTagFields_no_ArgumentPanic structField vParams fValue'
                  (rangeOrder (length pre) (Fields vParams))) as Ha.
    destruct (evalTagFields structField vParams fValue'
                (rangeOrder (length pre) (Fields vParams))) as [[e|]|m|a].
    - destruct (Hr e eq_refl) as [Hn Hc]. split; [done|]. tauto.
    - apply Hb; [by apply elem_of_rangeOrder| |done].
      by rewrite evalTagField_unknown.
    - done.
    - by apply (Ha a). }
  rewrite (Validate_reached _ _ _ _ _ _ Hpre).
  rewrite (validateField_decoded _ _ _ _ _ Ht), Hd.
  split; [|split].
  - intros Hcase.
    destruct (inputData !! Name vParams) as [[val|]|] eqn:Hin.
    + destruct (json_Unmarshal val fValue) as [fValue' [msg|]].
      * simpl. auto.
      * specialize (Hblocked fValue').
        by destruct (evalTagFields structField vParams fValue'
                       (rangeOrder (length pre) (Fields vParams)))
          as [[e|]|m|a].
    + done.
    + destruct Hcase as [[x Hx]|[Hr [d Hdef]]]; [discriminate Hx|].
      rewrite Hr, Hdef.
      destruct (setDefaultValue fValue d) as [fValue'|m]; [|done].
      specialize (Hblocked fValue').
      by destruct (evalTagFields structField vParams fValue'
                     (rangeOrder (length pre) (Fields vParams)))
        as [[e|]|m|a].
  - intros fValue' Hcase Hothers.
    assert (Hrun : evalTagFields structField vParams fValue'
                     (rangeOrder (length pre) (Fields vParams))
                   = Panic (UnknownTagField (clauseName v))).
    { rewrite (evalTagFields_only _ _ _ _ _ _ _ Hf Hothers).
      by rewrite evalTagField_unknown. }
    destruct Hcase as [[val [Hin Hj]]|[Hin [Hr [d [Hdef Hs]]]]].
    + by rewrite Hin, Hj, Hrun.
    + by rewrite Hin, Hr, Hdef, Hs, Hrun.
  - intros Hin Hdef. rewrite Hin, Hdef.
    destruct (Required vParams); [done|].
    by destruct (validateFields (S (length pre)) inputData post).
Qed.

End Constraints.

Lemma C1_scenarioA_200_is_accepted_witness :
  @Validate scalarRuntime {[ "age" := Some "200" ]}
    (PointerToStruct
       [({| FName := "Age";
            Tag_Lookup := Some "name=age,required,min=0,max=150" |},
         VInt KInt 0)])
  = (PointerToStruct
       [({| FName := "Age";
            Tag_Lookup := Some "name=age,required,min=0,max=150" |},
         VInt KInt 200)],
     Done None).
Proof.
  apply (C1_scenarioA_200_is_accepted (RT := scalarRuntime)
           {[ "age" := Some "200" ]} "200" 0).
  - vm_compute. reflexivity.
  - vm_compute. reflexivity.
Defined.

Lemma C2_scenarioC_purple_is_accepted_witness :
  @Validate scalarRuntime {[ "color" := Some (quoted "purple") ]}
    (PointerToStruct
       [({| FName := "Color";
            Tag_Lookup := Some "name=color,oneof=red|green|blue" |},
         VString "")])
  = (PointerToStruct
       [({| FName := "Color";
            Tag_Lookup := Some "name=color,oneof=red|green|blue" |},
         VString "purple")],
     Done None).
Proof.
  apply (C2_scenarioC_purple_is_accepted (RT := scalarRuntime)
           {[ "color" := Some (quoted "purple") ]} (quoted "purple") "").
  - vm_compute. reflexivity.
  - vm_compute. reflexivity.
Defined.

Lemma C9_min_on_int16_panics_witness :
  @Validate scalarRuntime {[ "a" := Some "1" ]}
    (PointerToStruct
       [({| FName := "A"; Tag_Lookup := Some "name=a,min=0" |},
         VInt KInt16 0)])
  = (PointerToStruct
       [({| FName := "A"; Tag_Lookup := Some "name=a,min=0" |},
         VInt KInt16 1)],
     Panic (NotIntegerOrFloat "min" "A")).
Proof.
  apply (C9_min_on_int16_panics (RT := scalarRuntime)
           {[ "a" := Some "1" ]} "1" 0).
  - vm_compute. reflexivity.
  - vm_compute. reflexivity.
Defined.

Lemma C4_length_bound_wraps_witness :
  @Validate scalarRuntime {[ "bio" := Some (quoted "a") ]}
    (PointerToStruct
       [({| FName := "Bio";
            Tag_Lookup := Some "name=bio,maxLen=18446744073709551615" |},
         VString "")])
  = (PointerToStruct
       [({| FName := "Bio";
            Tag_Lookup := Some "name=bio,maxLen=18446744073709551615" |},
         VString "a")],
     Done (Some {| ParamName := "bio";
                   Code := VALIDATE_ERR_CODE_TOO_LONG;
                   OriginalError :=
                     Some (Errorf_too_long "bio" 18446744073709551615) |}))
  /\ @Validate scalarRuntime {[ "bio" := Some (quoted "a") ]}
       (PointerToStruct
          [({| FName := "Bio";
               Tag_Lookup := Some "name=bio,minLen=9223372036854775808" |},
            VString "")])
     = (PointerToStruct
          [({| FName := "Bio";
               Tag_Lookup := Some "name=bio,minLen=9223372036854775808" |},
            VString "a")],
        Done None).
Proof.
  apply (C4_length_bound_wraps (RT := scalarRuntime)
           {[ "bio" := Some (quoted "a") ]} (quoted "a") "").
  - vm_compute. reflexivity.
  - vm_compute. reflexivity.
Defined.

(** C3 as stated fails: the tag has the clause [bogus=1], the key is
    absent, and the call returns [nil] with the field as it was. *)
Lemma C3_unknown_name_skipped_when_absent :
  ("bogus=1" ∈ Split "name=a,bogus=1" ",")
  /\ (clauseName "bogus=1" ∉ recognized)
  /\ @Validate scalarRuntime ∅
       (PointerToStruct
          [({| FName := "A"; Tag_Lookup := Some "name=a,bogus=1" |},
            VInt KInt 7)])
     = (PointerToStruct
          [({| FName := "A"; Tag_Lookup := Some "name=a,bogus=1" |},
            VInt KInt 7)],
        Done None).
Proof.
  split; [|split].
  - apply (bool_decide_unpack _). vm_compute. exact I.
  - apply (bool_decide_unpack _). vm_compute. exact I.
  - vm_compute. reflexivity.
Qed.

Lemma C3_unknown_name_when_evaluated_witness :
  @Validate scalarRuntime {[ "a" := Some "1" ]}
    (PointerToStruct
       [({| FName := "A"; Tag_Lookup := Some "name=a,bogus=1" |},
         VInt KInt 7)])
  = (PointerToStruct
       [({| FName := "A"; Tag_Lookup := Some "name=a,bogus=1" |},
         VInt KInt 1)],
     Panic (UnknownTagField "bogus")).
Proof.
  refine (proj1 (proj2
    (C3_unknown_name_when_evaluated (RT := scalarRuntime)
       {[ "a" := Some "1" ]} [] [] []
       {| FName := "A"; Tag_Lookup := Some "name=a,bogus=1" |}
       (VInt KInt 7) "name=a,bogus=1"
       {| Name := "a"; Required := false; Fields := {[ "bogus" := "1" ]} |}
       "bogus=1" _ _ _ _ _)) (VInt KInt 1) _ _).
  - reflexivity.
  - reflexivity.
  - vm_compute. reflexivity.
  - apply (bool_decide_unpack _). vm_compute. exact I.
  - apply (bool_decide_unpack _). vm_compute. exact I.
  - left. exists "1". split; vm_compute; reflexivity.
  - intros k' v' H Hne. simpl in H.
    apply lookup_singleton_Some in H as [<- <-]. by destruct Hne.
Defined.

(** * Further properties of the code *)

(** ** The tag parser: what an accepted tag yields *)

Lemma decodeTagFields_ok_NoDup tagFieldsRaw vParams :
  decodeTagFields tagFieldsRaw = Ok vParams ->
  NoDup (clauseName <$> tagFieldsRaw)
  /\ (forall v, v ∈ tagFieldsRaw -> ~ malformedClause v).
Proof.
  intros Hd.
  assert (Hn : ~ exists m, decodeTagFields tagFieldsRaw = Panicked m).
  { rewrite Hd. intros [m Hm]. discriminate Hm. }
  rewrite decodeTagFields_panics in Hn. split.
  - destruct (decide (NoDup (clauseName <$> tagFieldsRaw))) as [|Hnd];
      [done|]. exfalso. apply Hn. by right.
  - intros v Hv Hbad. apply Hn. left. apply Exists_exists. by exists v.
Qed.

(** X1. What an accepted tag yields: its constraints are exactly its
    clauses other than [name] and [required], each with the text after its
    first [=] as value; its name is the value of its [name] clause, and
    the empty string when it has none; it is required exactly when it has
    a [required] clause whose value is not [false]. *)
Theorem X1_accepted_tag tagFieldsRaw vParams :
  decodeTagFields tagFieldsRaw = Ok vParams ->
  (forall k x,
     Fields vParams !! k = Some x
     <-> exists v, v ∈ tagFieldsRaw /\ clauseName v = k /\ clauseValue v = x
                   /\ k <> "name" /\ k <> "required")
  /\ ((exists v, v ∈ tagFieldsRaw /\ clauseName v = "name"
                 /\ Name vParams = clauseValue v /\ clauseValue v <> "")
      \/ ((forall v, v ∈ tagFieldsRaw -> clauseName v <> "name")
          /\ Name vParams = ""))
  /\ (Required vParams = true
      <-> exists v, v ∈ tagFieldsRaw /\ clauseName v = "required"
                    /\ clauseValue v <> "false").
Proof.
  intros Hd. split; [|split].
  - intros k x. by apply decodeTagFields_Fields.
  - by apply decodeTagFields_Name.
  - by apply decodeTagFields_Required.
Qed.

Lemma X1_accepted_tag_witness :
  exists v, v ∈ Split "name=age,required=true,default=a=b,oneof" ","
            /\ clauseName v = "default" /\ clauseValue v = "a=b"
            /\ "default" <> "name" /\ "default" <> "required".
Proof.
  refine (proj1 (proj1
    (X1_accepted_tag (Split "name=age,required=true,default=a=b,oneof" ",")
       {| Name := "age"; Required := true;
          Fields := <[ "oneof" := "" ]> {[ "default" := "a=b" ]} |} _)
    "default" "a=b") _).
  - vm_compute. reflexivity.
  - vm_compute. reflexivity.
Defined.

(** An accepted tag's result is determined by the set of its clauses. *)
Lemma decodeTagFields_determined cs1 cs2 p1 p2 :
  decodeTagFields cs1 = Ok p1 ->
  decodeTagFields cs2 = Ok p2 ->
  (forall v, v ∈ cs1 <-> v ∈ cs2) ->
  p1 = p2.
Proof.
  intros H1 H2 Hsame.
  pose proof (decodeTagFields_ok_NoDup _ _ H2) as [Hnd2 _].
  assert (HF : Fields p1 = Fields p2).
  { apply map_eq. intros k. apply option_eq. intros x.
    rewrite (decodeTagFields_Fields _ _ _ _ H1).
    rewrite (decodeTagFields_Fields _ _ _ _ H2).
    split; intros [v [Hv H]]; exists v; (split; [by apply Hsame|done]). }
  assert (HN : Name p1 = Name p2).
  { destruct (decodeTagFields_Name _ _ H1) as [[v1 [Hv1 [Hn1 [Hx1 _]]]]|[Ha1 Hx1]];
      destruct (decodeTagFields_Name _ _ H2)
        as [[v2 [Hv2 [Hn2 [Hx2 _]]]]|[Ha2 Hx2]].
    - assert (v1 = v2) as ->.
      { eapply NoDup_fmap_eq; [exact Hnd2|by apply Hsame|done|congruence]. }
      congruence.
    - exfalso. apply (Ha2 v1); [by apply Hsame|done].
    - exfalso. apply (Ha1 v2); [by apply Hsame|done].
    - congruence. }
  assert (HR : Required p1 = Required p2).
  { assert (Hiff : Required p1 = true <-> Required p2 = true).
    { rewrite (decodeTagFields_Required _ _ H1).
      rewrite (decodeTagFields_Required _ _ H2).
      split; intros [v [Hv H]]; exists v; (split; [by apply Hsame|done]). }
    destruct (Required p1), (Required p2); try done.
    - symmetry. by apply Hiff.
    - by apply Hiff. }
  destruct p1, p2; simpl in *; by subst.
Qed.

Lemma decodeTagFields_panics_same cs1 cs2 :
  (forall v, v ∈ cs1 <-> v ∈ cs2) ->
  cs1 ≡ₚ cs2 ->
  (exists m, decodeTagFields cs1 = Panicked m)
  <-> (exists m, decodeTagFields cs2 = Panicked m).
Proof.
  intros Hsame Hperm. rewrite !decodeTagFields_panics, !Exists_exists.
  assert (Hnames : clauseName <$> cs1 ≡ₚ clauseName <$> cs2)
    by (by apply fmap_Permutation).
  split; intros [[v [Hv H]]|H].
  - left. exists v. split; [by apply Hsame|done].
  - right. by rewrite <- Hnames.
  - left. exists v. split; [by apply Hsame|done].
  - right. by rewrite Hnames.
Qed.

(** X2. The order of the clauses of a tag does not matter: two tags with
    the same clauses in a different order are both rejected, or both
    accepted with the same result. *)
Theorem X2_clause_order_irrelevant cs1 cs2 :
  cs1 ≡ₚ cs2 ->
  match decodeTagFields cs1, decodeTagFields cs2 with
  | Ok p1, Ok p2 => p1 = p2
  | Panicked _, Panicked _ => True
  | _, _ => False
  end.
Proof.
  intros Hperm.
  assert (Hsame : forall v, v ∈ cs1 <-> v ∈ cs2).
  { intros v. by rewrite Hperm. }
  pose proof (decodeTagFields_panics_same cs1 cs2 Hsame Hperm) as Hp.
  destruct (decodeTagFields cs1) as [p1|m1] eqn:E1;
    destruct (decodeTagFields cs2) as [p2|m2] eqn:E2.
  - by eapply decodeTagFields_determined.
  - destruct Hp as [_ Hp]. destruct (Hp (ex_intro _ m2 eq_refl)) as [m Hm].
    discriminate Hm.
  - destruct Hp as [Hp _]. destruct (Hp (ex_intro _ m1 eq_refl)) as [m Hm].
    discriminate Hm.
  - done.
Qed.

Lemma X2_clause_order_irrelevant_witness :
  match decodeTagFields (Split "name=age,required,min=0,max=150" ","),
        decodeTagFields (Split "max=150,required,name=age,min=0" ",") with
  | Ok p1, Ok p2 => p1 = p2
  | Panicked _, Panicked _ => True
  | _, _ => False
  end.
Proof.
  apply (X2_clause_order_irrelevant
           (Split "name=age,required,min=0,max=150" ",")
           (Split "max=150,required,name=age,min=0" ",")).
  apply (bool_decide_unpack _). vm_compute. exact I.
Defined.

(** ** The tag parser: from the text of a tag and back *)

Lemma occurs_app c a b : occurs c (a ++ b) = occurs c a || occurs c b.
Proof.
  induction a as [|c' a IH]; simpl; [done|].
  rewrite IH. by rewrite orb_assoc.
Qed.

Lemma Split_no_sep s sep : occurs sep s = false -> Split s sep = [s].
Proof.
  induction s as [|c s IH]; simpl; [done|].
  intros H. apply orb_false_iff in H as [Hc Hs].
  rewrite Hc. by rewrite (IH Hs).
Qed.

Lemma Split_app_sep s t sep :
  occurs sep s = false ->
  Split (s ++ String sep t) sep = s :: Split t sep.
Proof.
  induction s as [|c s IH]; simpl.
  - intros _. by rewrite Ascii.eqb_refl.
  - intros H. apply orb_false_iff in H as [Hc Hs].
    rewrite Hc. by rewrite (IH Hs).
Qed.

Lemma Split_Join elems sep :
  elems <> [] ->
  Forall (fun e => occurs sep e = false) elems ->
  Split (Join elems sep) sep = elems.
Proof.
  induction elems as [|e rest IH]; [done|].
  intros _ Hall. apply Forall_cons in Hall as [He Hrest].
  destruct rest as [|e' rest].
  - simpl. by apply Split_no_sep.
  - change (Join (e :: e' :: rest) sep)
      with (e ++ String sep (Join (e' :: rest) sep)).
    rewrite Split_app_sep by done. f_equal. by apply IH.
Qed.

Lemma SplitN2_no_sep s sep : occurs sep s = false -> SplitN2 s sep = [s].
Proof.
  induction s as [|c s IH]; simpl; [done|].
  intros H. apply orb_false_iff in H as [Hc Hs].
  rewrite Hc. by rewrite (IH Hs).
Qed.

Lemma SplitN2_app_sep s t sep :
  occurs sep s = false -> SplitN2 (s ++ String sep t) sep = [s; t].
Proof.
  induction s as [|c s IH]; simpl.
  - intros _. by rewrite Ascii.eqb_refl.
  - intros H. apply orb_false_iff in H as [Hc Hs].
    rewrite Hc. by rewrite (IH Hs).
Qed.

(** A clause [k=x] splits at its first [=]: the name is the text before
    it, the value all the text after it. *)
Lemma clause_of_render k x :
  occurs "=" k = false ->
  clauseName (renderClause (k, x)) = k
  /\ clauseValue (renderClause (k, x)) = x.
Proof.
  intros Hk. unfold clauseName, clauseValue, renderClause. simpl.
  by rewrite (SplitN2_app_sep k x "=" Hk).
Qed.

Lemma clause_without_value k :
  occurs "=" k = false -> clauseName k = k /\ clauseValue k = "".
Proof.
  intros Hk. unfold clauseName, clauseValue.
  by rewrite (SplitN2_no_sep k "=" Hk).
Qed.

Lemma elem_of_tagClauses vParams v :
  v ∈ tagClauses vParams
  <-> v = renderClause (TAG_FIELD_NAME, Name vParams)
      \/ (Required vParams = true /\ v = TAG_FIELD_REQUIRED)
      \/ (exists k x, Fields vParams !! k = Some x /\ v = renderClause (k, x)).
Proof.
  unfold tagClauses. rewrite elem_of_cons, elem_of_app, list_elem_of_fmap.
  split.
  - intros [H|[H|[[k x] [-> H]]]].
    + by left.
    + right. left. destruct (Required vParams); [|inversion H].
      apply list_elem_of_singleton in H. done.
    + right. right. exists k, x. split; [|done].
      by apply elem_of_map_to_list.
  - intros [H|[[Hr ->]|[k [x [H ->]]]]].
    + by left.
    + right. left. rewrite Hr. by apply list_elem_of_singleton.
    + right. right. exists (k, x). split; [done|].
      by apply elem_of_map_to_list.
Qed.

Lemma tagClauses_names vParams :
  writable vParams ->
  clauseName <$> tagClauses vParams
  = (TAG_FIELD_NAME
     :: (if Required vParams then [TAG_FIELD_REQUIRED] else [])
        ++ (map_to_list (Fields vParams)).*1)%list.
Proof.
  intros [_ [_ Hw]]. unfold tagClauses. rewrite fmap_cons, fmap_app.
  replace (clauseName (renderClause (TAG_FIELD_NAME, Name vParams)))
    with TAG_FIELD_NAME by (symmetry; by apply clause_of_render).
  f_equal. f_equal.
  - by destruct (Required vParams).
  - rewrite <- list_fmap_compose. apply list_fmap_ext.
    intros i [k x] Hi. simpl.
    apply list_elem_of_lookup_2, elem_of_map_to_list in Hi.
    destruct (Hw k x Hi) as [_ [_ [_ [He _]]]].
    by apply clause_of_render.
Qed.

(** X3. Writing a [FieldValidationParams] as a tag and parsing the tag
    gives it back, for names and values the syntax can carry (see
    [writable]); in particular a value may hold [=] signs. *)
Theorem X3_render_then_parse vParams :
  writable vParams ->
  decodeTagFields (Split (renderTag vParams) ",") = Ok vParams.
Proof.
  intros Hw. pose proof Hw as [Hname [Hcomma Hfields]].
  assert (Hsplit : Split (renderTag vParams) "," = tagClauses vParams).
  { unfold renderTag. apply Split_Join; [done|].
    apply Forall_forall. intros v Hv.
    apply elem_of_tagClauses in Hv as [->|[[_ ->]|[k [x [Hk ->]]]]].
    - unfold renderClause. simpl. done.
    - done.
    - destruct (Hfields k x Hk) as [_ [_ [_ [_ [Hck Hcx]]]]].
      unfold renderClause. simpl. rewrite occurs_app. simpl.
      by rewrite Hck, Hcx. }
  rewrite Hsplit.
  assert (Hkeys : forall k, k ∈ (map_to_list (Fields vParams)).*1 ->
            k <> TAG_FIELD_NAME /\ k <> TAG_FIELD_REQUIRED).
  { intros k Hk. apply list_elem_of_fmap in Hk as [[k' x] [-> Hk]].
    apply elem_of_map_to_list in Hk.
    destruct (Hfields k' x Hk) as [_ [H1 [H2 _]]]. done. }
  assert (Hnd : NoDup (clauseName <$> tagClauses vParams)).
  { rewrite (tagClauses_names _ Hw). apply NoDup_cons. split.
    - intros Hin. apply elem_of_app in Hin as [Hin|Hin].
      + destruct (Required vParams); [|inversion Hin].
        apply list_elem_of_singleton in Hin. discriminate Hin.
      + by destruct (Hkeys _ Hin).
    - apply NoDup_app. split; [|split].
      + destruct (Required vParams); [apply NoDup_singleton|apply NoDup_nil_2].
      + intros k Hin Hin'. destruct (Required vParams); [|inversion Hin].
        apply list_elem_of_singleton in Hin. subst k.
        by destruct (Hkeys _ Hin').
      + apply NoDup_fst_map_to_list. }
  assert (Hgood : forall v, v ∈ tagClauses vParams -> ~ malformedClause v).
  { intros v Hv.
    apply elem_of_tagClauses in Hv as [->|[[_ ->]|[k [x [Hk ->]]]]].
    - destruct (clause_of_render TAG_FIELD_NAME (Name vParams) eq_refl)
        as [Hn Hx].
      unfold malformedClause. rewrite Hn, Hx.
      intros [H|[[_ H]|[H _]]]; [discriminate H|done|discriminate H].
    - intros [H|[[H _]|[_ [H _]]]]; [discriminate H|discriminate H|].
      by apply H.
    - destruct (Hfields k x Hk) as [H0 [H1 [H2 [He _]]]].
      destruct (clause_of_render k x He) as [Hn Hx].
      unfold malformedClause. rewrite Hn.
      intros [H|[[H _]|[H _]]]; done. }
  destruct (decodeTagFields (tagClauses vParams)) as [p|m] eqn:Hd.
  - f_equal.
    assert (HF : Fields p = Fields vParams).
    { apply map_eq. intros k. apply option_eq. intros x.
      rewrite (decodeTagFields_Fields _ _ _ _ Hd). split.
      - intros [v [Hv [Hn [Hx [H1 H2]]]]].
        apply elem_of_tagClauses in Hv as [->|[[_ ->]|[k' [x' [Hk ->]]]]].
        + destruct (clause_of_render TAG_FIELD_NAME (Name vParams) eq_refl)
            as [Hn' _]. congruence.
        + exfalso. apply H2. rewrite <- Hn. done.
        + destruct (Hfields k' x' Hk) as [_ [_ [_ [He _]]]].
          destruct (clause_of_render k' x' He) as [Hn' Hx']. congruence.
      - intros Hk. destruct (Hfields k x Hk) as [_ [H1 [H2 [He _]]]].
        destruct (clause_of_render k x He) as [Hn' Hx'].
        exists (renderClause (k, x)). split; [|done].
        apply elem_of_tagClauses. right. right. by exists k, x. }
    assert (HN : Name p = Name vParams).
    { destruct (clause_of_render TAG_FIELD_NAME (Name vParams) eq_refl)
        as [Hn Hx].
      destruct (decodeTagFields_Name _ _ Hd)
        as [[v [Hv [Hvn [Hvx _]]]]|[Hall _]].
      - assert (v = renderClause (TAG_FIELD_NAME, Name vParams)) as ->.
        { eapply NoDup_fmap_eq; [exact Hnd|done| |congruence].
          apply elem_of_tagClauses. by left. }
        congruence.
      - exfalso. apply (Hall (renderClause (TAG_FIELD_NAME, Name vParams)));
          [|done]. apply elem_of_tagClauses. by left. }
    assert (HR : Required p = Required vParams).
    { pose proof (decodeTagFields_Required _ _ Hd) as Hiff.
      destruct (Required vParams) eqn:Er.
      - apply Hiff. exists TAG_FIELD_REQUIRED. split; [|done].
        apply elem_of_tagClauses. right. by left.
      - destruct (Required p); [|done]. exfalso.
        destruct Hiff as [Hiff _].
        destruct (Hiff eq_refl) as [v [Hv [Hvn _]]].
        apply elem_of_tagClauses in Hv as [->|[[Hr _]|[k' [x' [Hk ->]]]]].
        + destruct (clause_of_render TAG_FIELD_NAME (Name vParams) eq_refl)
            as [Hn' _]. rewrite Hn' in Hvn. discriminate Hvn.
        + congruence.
        + destruct (Hfields k' x' Hk) as [_ [_ [H2 [He _]]]].
          destruct (clause_of_render k' x' He) as [Hn' _]. congruence. }
    destruct p, vParams; simpl in *; by subst.
  - exfalso.
    assert (Hp : exists m, decodeTagFields (tagClauses vParams) = Panicked m)
      by (by exists m).
    apply decodeTagFields_panics in Hp as [Hp|Hp]; [|done].
    apply Exists_exists in Hp as [v [Hv Hbad]]. by apply (Hgood v).
Qed.

Lemma X3_render_then_parse_witness :
  decodeTagFields
    (Split (renderTag {| Name := "age"; Required := true;
                         Fields := <[ "default" := "a=b" ]>
                                     {[ "max" := "150" ]} |}) ",")
  = Ok {| Name := "age"; Required := true;
          Fields := <[ "default" := "a=b" ]> {[ "max" := "150" ]} |}.
Proof.
  apply X3_render_then_parse.
  split; [discriminate|split; [reflexivity|]].
  intros k x H. simpl in H.
  apply lookup_insert_Some in H as [[<- <-]|[_ H]].
  - repeat split; try discriminate; reflexivity.
  - apply lookup_singleton_Some in H as [<- <-].
    repeat split; try discriminate; reflexivity.
Defined.

(** ** The engine: how a call ends *)

Section Runs.
Context {RT : Runtime}.

Lemma evalTagFields_Done_None structField vParams (fValue : Value float64)
    order :
  evalTagFields structField vParams fValue order = Done None ->
  forall k x, (k, x) ∈ order ->
    evalTagField structField vParams fValue k x = Ok None.
Proof.
  induction order as [|[k' x'] rest IH]; intros Hrun k x Hin;
    [inversion Hin|].
  simpl in Hrun.
  destruct (evalTagField structField vParams fValue k' x') as [[e|]|m] eqn:E;
    try discriminate Hrun.
  apply elem_of_cons in Hin as [Heq|Hin].
  - by inversion Heq; subst.
  - by apply IH.
Qed.

Lemma evalTagFields_Done_Some structField vParams (fValue : Value float64)
    order e :
  evalTagFields structField vParams fValue order = Done (Some e) ->
  exists k x, (k, x) ∈ order
              /\ evalTagField structField vParams fValue k x = Ok (Some e).
Proof.
  induction order as [|[k' x'] rest IH]; simpl; [discriminate|].
  destruct (evalTagField structField vParams fValue k' x') as [[e'|]|m] eqn:E.
  - intros Heq. inversion Heq; subst. exists k', x'. split; [by left|done].
  - intros Hrun. destruct (IH Hrun) as [k [x [Hin H]]].
    exists k, x. split; [by right|done].
  - discriminate.
Qed.

(** What a constraint that lets the value pass says about the value. *)
Lemma evalTagField_Ok_None structField vParams (fValue : Value float64) k x :
  evalTagField structField vParams fValue k x = Ok None ->
  k ∈ [TAG_FIELD_MIN; TAG_FIELD_MAX; TAG_FIELD_MIN_LEN; TAG_FIELD_MAX_LEN;
       TAG_FIELD_DEFAULT; TAG_FIELD_ONE_OF]
  /\ (k = TAG_FIELD_MAX_LEN ->
      exists s b, fValue = VString s /\ ParseUint x = Some b
                  /\ Z.of_nat (String.length s) <= to_int b)
  /\ (k = TAG_FIELD_MIN_LEN ->
      exists s b, fValue = VString s /\ ParseUint x = Some b
                  /\ to_int b <= Z.of_nat (String.length s)).
Proof.
  unfold evalTagField.
  destruct (decide (k = TAG_FIELD_MIN \/ k = TAG_FIELD_MAX)) as [Hb|Hb].
  { intros _. split; [destruct Hb as [->| ->]; set_solver|].
    split; intros ->; destruct Hb as [Hb|Hb]; discriminate Hb. }
  destruct (decide (k = TAG_FIELD_MIN_LEN \/ k = TAG_FIELD_MAX_LEN))
    as [Hl|Hl].
  { unfold checkLen. destruct fValue as [| | |s|]; try discriminate.
    destruct (ParseUint x) as [b|]; [|discriminate].
    destruct (bool_decide (k = TAG_FIELD_MAX_LEN)
              && (to_int b <? Z.of_nat (String.length s))) eqn:E1;
      [discriminate|].
    destruct (bool_decide (k = TAG_FIELD_MIN_LEN)
              && (Z.of_nat (String.length s) <? to_int b)) eqn:E2;
      [discriminate|].
    intros _. split; [destruct Hl as [->| ->]; set_solver|].
    split; intros ->; exists s, b; (split; [done|split; [done|]]).
    - rewrite bool_decide_eq_true_2 in E1 by done. simpl in E1.
      by apply Z.ltb_ge in E1.
    - rewrite bool_decide_eq_true_2 in E2 by done. simpl in E2.
      by apply Z.ltb_ge in E2. }
  destruct (decide (k = TAG_FIELD_ONE_OF)) as [->|Ho].
  { intros _. split; [set_solver|]. split; discriminate. }
  destruct (decide (k = TAG_FIELD_DEFAULT)) as [->|Hd]; [|discriminate].
  intros _. split; [set_solver|]. split; discriminate.
Qed.

(** The only errors a constraint returns, in full. *)
Lemma evalTagField_Ok_Some structField vParams (fValue : Value float64)
    k x e :
  evalTagField structField vParams fValue k x = Ok (Some e) ->
  exists s b,
    fValue = VString s /\ ParseUint x = Some b
    /\ ((k = TAG_FIELD_MAX_LEN
         /\ to_int b < Z.of_nat (String.length s)
         /\ e = {| ParamName := Name vParams;
                   Code := VALIDATE_ERR_CODE_TOO_LONG;
                   OriginalError := Some (Errorf_too_long (Name vParams) b) |})
        \/ (k = TAG_FIELD_MIN_LEN
            /\ Z.of_nat (String.length s) < to_int b
            /\ e = {| ParamName := Name vParams;
                      Code := VALIDATE_ERR_CODE_TOO_SHORT;
                      OriginalError :=
                        Some (Errorf_too_short (Name vParams) b) |})).
Proof.
  unfold evalTagField.
  destruct (decide (k = TAG_FIELD_MIN \/ k = TAG_FIELD_MAX)) as [Hb|Hb].
  { destruct (checkBound structField fValue k x); simpl; discriminate. }
  destruct (decide (k = TAG_FIELD_MIN_LEN \/ k = TAG_FIELD_MAX_LEN))
    as [Hl|Hl].
  { unfold checkLen. destruct fValue as [| | |s|]; try discriminate.
    destruct (ParseUint x) as [b|]; [|discriminate].
    destruct (bool_decide (k = TAG_FIELD_MAX_LEN)
              && (to_int b <? Z.of_nat (String.length s))) eqn:E1.
    - intros Heq. inversion Heq; subst. exists s, b.
      split; [done|split; [done|left]].
      apply andb_true_iff in E1 as [Hk Hlt].
      apply bool_decide_eq_true in Hk. apply Z.ltb_lt in Hlt. done.
    - destruct (bool_decide (k = TAG_FIELD_MIN_LEN)
                && (Z.of_nat (String.length s) <? to_int b)) eqn:E2;
        [|discriminate].
      intros Heq. inversion Heq; subst. exists s, b.
      split; [done|split; [done|right]].
      apply andb_true_iff in E2 as [Hk Hlt].
      apply bool_decide_eq_true in Hk. apply Z.ltb_lt in Hlt. done. }
  destruct (decide (k = TAG_FIELD_ONE_OF)); [discriminate|].
  destruct (decide (k = TAG_FIELD_DEFAULT)); discriminate.
Qed.

Lemma validateFields_stop inputData
    (fields : list (StructField * Value float64)) :
  forall i fields' r,
  validateFields i inputData fields = (fields', r) ->
  r <> Done None ->
  exists pre pre' sf v v' post,
    fields = (pre ++ (sf, v) :: post)%list
    /\ fields' = (pre' ++ (sf, v') :: post)%list
    /\ validateFields i inputData pre = (pre', Done None)
    /\ validateField (i + length pre) inputData sf v = (v', r).
Proof.
  induction fields as [|[sf fv] rest IH]; intros i fields' r Hrun Hr.
  - simpl in Hrun. inversion Hrun; subst. done.
  - simpl in Hrun.
    destruct (validateField i inputData sf fv) as [fv' x] eqn:E.
    assert (Hhere : x <> Done None ->
              (fields', r) = ((sf, fv') :: rest, x) ->
              exists pre pre' sf0 v v' post,
                (sf, fv) :: rest = (pre ++ (sf0, v) :: post)%list
                /\ fields' = (pre' ++ (sf0, v') :: post)%list
                /\ validateFields i inputData pre = (pre', Done None)
                /\ validateField (i + length pre) inputData sf0 v = (v', r)).
    { intros _ Heq. inversion Heq; subst.
      exists [], [], sf, fv, fv', rest. simpl.
      replace (i + 0)%nat with i by lia. done. }
    destruct x as [[e|]|m|a]; try (apply Hhere; [discriminate|by symmetry]).
    destruct (validateFields (S i) inputData rest) as [rest' r'] eqn:E'.
    inversion Hrun; subst.
    destruct (IH _ _ _ E' Hr) as [pre [pre' [sf0 [v [v' [post H]]]]]].
    destruct H as [-> [-> [Hpre Hstep]]].
    exists ((sf, fv) :: pre), ((sf, fv') :: pre'), sf0, v, v', post.
    split; [done|split; [done|split]].
    + simpl. by rewrite E, Hpre.
    + simpl. by replace (i + S (length pre))%nat
               with (S i + length pre)%nat by lia.
Qed.

Lemma validateFields_success inputData
    (fields : list (StructField * Value float64)) :
  forall i fields',
  validateFields i inputData fields = (fields', Done None) ->
  forall n sf v, fields !! n = Some (sf, v) ->
    exists v', validateField (i + n) inputData sf v = (v', Done None)
               /\ fields' !! n = Some (sf, v').
Proof.
  induction fields as [|[sf fv] rest IH]; intros i fields' Hrun n sf0 v Hn;
    [done|].
  simpl in Hrun.
  destruct (validateField i inputData sf fv) as [fv' x] eqn:E.
  destruct x as [[e|]|m|a]; try discriminate Hrun.
  destruct (validateFields (S i) inputData rest) as [rest' r'] eqn:E'.
  inversion Hrun; subst.
  destruct n as [|n]; simpl in Hn.
  - inversion Hn; subst. exists fv'.
    replace (i + 0)%nat with i by lia. done.
  - replace (i + S n)%nat with (S i + n)%nat by lia.
    by apply (IH _ _ E').
Qed.

(** X4. A call that does not return [nil] ends in the iteration of one
    field: the fields before it are as a passing run over them leaves them,
    the exit is the exit of that iteration, and the fields after it keep
    their values. *)
Theorem X4_stops_at_first_failure inputData
    (fields : list (StructField * Value float64)) out' r :
  Validate inputData (PointerToStruct fields) = (out', r) ->
  r <> Done None ->
  exists pre pre' sf v v' post,
    fields = (pre ++ (sf, v) :: post)%list
    /\ out' = PointerToStruct (pre' ++ (sf, v') :: post)%list
    /\ validateFields 0 inputData pre = (pre', Done None)
    /\ validateField (length pre) inputData sf v = (v', r).
Proof.
  unfold Validate. intros Hrun Hr.
  destruct (validateFields 0 inputData fields) as [fields' r'] eqn:E.
  inversion Hrun; subst.
  destruct (validateFields_stop _ _ _ _ _ E Hr)
    as [pre [pre' [sf [v [v' [post [-> [-> [Hpre Hstep]]]]]]]]].
  by exists pre, pre', sf, v, v', post.
Qed.

(** X5. What a [nil] result guarantees for every tagged field: its tag is
    well formed; if it is required, its key is in the input; and if its
    constraints were evaluated (the key is in the input or the tag has a
    default), all their names are known ones and the value the field holds
    now is a string within every length bound of the tag, as the code
    compares them. *)
Theorem X5_success_guarantees inputData
    (fields fields' : list (StructField * Value float64))
    n structField fValue tagValue :
  Validate inputData (PointerToStruct fields)
  = (PointerToStruct fields', Done None) ->
  fields !! n = Some (structField, fValue) ->
  Tag_Lookup structField = Some tagValue ->
  exists vParams fValue',
    decodeTagFields (Split tagValue ",") = Ok vParams
    /\ fields' !! n = Some (structField, fValue')
    /\ (Required vParams = true ->
        exists raw, inputData !! Name vParams = Some (Some raw))
    /\ (is_Some (inputData !! Name vParams)
        \/ is_Some (Fields vParams !! TAG_FIELD_DEFAULT) ->
        (forall k x, Fields vParams !! k = Some x ->
           k ∈ [TAG_FIELD_MIN; TAG_FIELD_MAX; TAG_FIELD_MIN_LEN;
                TAG_FIELD_MAX_LEN; TAG_FIELD_DEFAULT; TAG_FIELD_ONE_OF])
        /\ (forall x, Fields vParams !! TAG_FIELD_MAX_LEN = Some x ->
              exists s b, fValue' = VString s /\ ParseUint x = Some b
                          /\ Z.of_nat (String.length s) <= to_int b)
        /\ (forall x, Fields vParams !! TAG_FIELD_MIN_LEN = Some x ->
              exists s b, fValue' = VString s /\ ParseUint x = Some b
                          /\ to_int b <= Z.of_nat (String.length s))).
Proof.
  unfold Validate. intros Hrun Hn Ht.
  destruct (validateFields 0 inputData fields) as [fields0 r] eqn:E.
  inversion Hrun; subst.
  destruct (validateFields_success _ _ _ _ E _ _ _ Hn) as [v' [Hstep Hn']].
  simpl in Hstep. rewrite (validateField_decoded _ _ _ _ _ Ht) in Hstep.
  destruct (decodeTagFields (Split tagValue ",")) as [vParams|m];
    [|discriminate Hstep].
  exists vParams, v'. split; [done|split; [done|]].
  assert (Hloop : forall fv,
            evalTagFields structField vParams fv
              (rangeOrder n (Fields vParams)) = Done None ->
            (forall k x, Fields vParams !! k = Some x ->
               k ∈ [TAG_FIELD_MIN; TAG_FIELD_MAX; TAG_FIELD_MIN_LEN;
                    TAG_FIELD_MAX_LEN; TAG_FIELD_DEFAULT; TAG_FIELD_ONE_OF])
            /\ (forall x, Fields vParams !! TAG_FIELD_MAX_LEN = Some x ->
                  exists s b, fv = VString s /\ ParseUint x = Some b
                              /\ Z.of_nat (String.length s) <= to_int b)
            /\ (forall x, Fields vParams !! TAG_FIELD_MIN_LEN = Some x ->
                  exists s b, fv = VString s /\ ParseUint x = Some b
                              /\ to_int b <= Z.of_nat (String.length s))).
  { intros fv Hdone.
    assert (Hall : forall k x, Fields vParams !! k = Some x ->
              evalTagField structField vParams fv k x = Ok None).
    { intros k x Hk. apply (evalTagFields_Done_None _ _ _ _ Hdone).
      by apply elem_of_rangeOrder. }
    split; [|split].
    - intros k x Hk. by apply (evalTagField_Ok_None _ _ _ _ _ (Hall _ _ Hk)).
    - intros x Hk.
      by apply (evalTagField_Ok_None _ _ _ _ _ (Hall _ _ Hk)).
    - intros x Hk.
      by apply (evalTagField_Ok_None _ _ _ _ _ (Hall _ _ Hk)). }
  destruct (inputData !! Name vParams) as [[raw|]|] eqn:Hin.
  - destruct (json_Unmarshal raw fValue) as [fv [msg|]] eqn:Hj;
      [discriminate Hstep|].
    inversion Hstep; subst. split; [by eexists|].
    intros _. by apply Hloop.
  - discriminate Hstep.
  - destruct (Required vParams); [discriminate Hstep|].
    split; [discriminate|].
    destruct (Fields vParams !! TAG_FIELD_DEFAULT) as [d|] eqn:Hdef.
    + destruct (setDefaultValue fValue d) as [fv|m]; [|discriminate Hstep].
      inversion Hstep; subst. intros _. by apply Hloop.
    + intros [[y Hy]|[y Hy]]; discriminate Hy.
Qed.

End Runs.

(** ** The engine: errors, inputs and defaults *)

Section Errors.
Context {RT : Runtime}.

(** The errors one iteration returns, with what justifies each. *)
Lemma validateField_error i inputData structField
    (fValue fValue' : Value float64) e :
  validateField i inputData structField fValue = (fValue', Done (Some e)) ->
  exists tagValue vParams,
    Tag_Lookup structField = Some tagValue
    /\ decodeTagFields (Split tagValue ",") = Ok vParams
    /\ ((inputData !! Name vParams = None /\ Required vParams = true
         /\ fValue' = fValue
         /\ e = {| ParamName := Name vParams;
                   Code := VALIDATE_ERR_CODE_MISSING_REQ_PARAM;
                   OriginalError := Some (Errorf_required (Name vParams)) |})
        \/ (exists raw msg,
              inputData !! Name vParams = Some (Some raw)
              /\ json_Unmarshal raw fValue = (fValue', Some msg)
              /\ e = {| ParamName := Name vParams;
                        Code := VALIDATE_ERR_CODE_UNPARSABLE;
                        OriginalError := Some (errDecode msg) |})
        \/ (exists s x b,
              fValue' = VString s
              /\ Fields vParams !! TAG_FIELD_MAX_LEN = Some x
              /\ ParseUint x = Some b
              /\ to_int b < Z.of_nat (String.length s)
              /\ e = {| ParamName := Name vParams;
                        Code := VALIDATE_ERR_CODE_TOO_LONG;
                        OriginalError :=
                          Some (Errorf_too_long (Name vParams) b) |})
        \/ (exists s x b,
              fValue' = VString s
              /\ Fields vParams !! TAG_FIELD_MIN_LEN = Some x
              /\ ParseUint x = Some b
              /\ Z.of_nat (String.length s) < to_int b
              /\ e = {| ParamName := Name vParams;
                        Code := VALIDATE_ERR_CODE_TOO_SHORT;
                        OriginalError :=
                          Some (Errorf_too_short (Name vParams) b) |})).
Proof.
  destruct (Tag_Lookup structField) as [tagValue|] eqn:Ht;
    [|rewrite validateField_untagged by done; discriminate].
  rewrite (validateField_decoded _ _ _ _ _ Ht).
  destruct (decodeTagFields (Split tagValue ",")) as [vParams|m] eqn:Hd;
    [|discriminate].
  intros Hstep. exists tagValue, vParams. split; [done|split; [done|]].
  assert (Hloop : forall fv,
            evalTagFields structField vParams fv
              (rangeOrder i (Fields vParams)) = Done (Some e) ->
            (exists s x b,
               fv = VString s
               /\ Fields vParams !! TAG_FIELD_MAX_LEN = Some x
               /\ ParseUint x = Some b
               /\ to_int b < Z.of_nat (String.length s)
               /\ e = {| ParamName := Name vParams;
                         Code := VALIDATE_ERR_CODE_TOO_LONG;
                         OriginalError :=
                           Some (Errorf_too_long (Name vParams) b) |})
            \/ (exists s x b,
                  fv = VString s
                  /\ Fields vParams !! TAG_FIELD_MIN_LEN = Some x
                  /\ ParseUint x = Some b
                  /\ Z.of_nat (String.length s) < to_int b
                  /\ e = {| ParamName := Name vParams;
                            Code := VALIDATE_ERR_CODE_TOO_SHORT;
                            OriginalError :=
                              Some (Errorf_too_short (Name vParams) b) |})).
  { intros fv Hrun.
    apply evalTagFields_Done_Some in Hrun as [k [x [Hin Hrun]]].
    apply elem_of_rangeOrder in Hin.
    apply evalTagField_Ok_Some in Hrun
      as [s [b [-> [Hp [[-> [Hlt ->]]|[-> [Hlt ->]]]]]]].
    - left. by exists s, x, b.
    - right. by exists s, x, b. }
  destruct (inputData !! Name vParams) as [[raw|]|] eqn:Hin.
  - destruct (json_Unmarshal raw fValue) as [fv [msg|]] eqn:Hj.
    + inversion Hstep; subst. right. left. by exists raw, msg.
    + inversion Hstep as [[Hv Hrun]]. subst fv.
      right. right. by apply Hloop.
  - discriminate Hstep.
  - destruct (Required vParams).
    + inversion Hstep; subst. by left.
    + destruct (Fields vParams !! TAG_FIELD_DEFAULT) as [d|];
        [|discriminate Hstep].
      destruct (setDefaultValue fValue d) as [fv|m]; [|discriminate Hstep].
      inversion Hstep as [[Hv Hrun]]. subst fv.
      right. right. by apply Hloop.
Qed.

(** X6. Every error [Validate] returns is justified by one field: the
    error carries the external name of that field's (well-formed) tag, and
    - [MissingRequired]: the tag is required and the name is no key of the
      input;
    - [Unparsable]: the name is a key of the input and [json.Unmarshal]
      failed on its value, with the error the [ValidateError] wraps;
    - [TooLong], [TooShort]: the field now holds a string, the tag has a
      [maxLen] ([minLen]) clause with a bound that reads as an unsigned
      integer, and the length is above (below) the bound as the code
      compares it.
    No other code is returned. *)
Theorem X6_errors_are_justified inputData
    (fields : list (StructField * Value float64)) out' e :
  Validate inputData (PointerToStruct fields) = (out', Done (Some e)) ->
  exists n fields' sf v v' tagValue vParams,
    out' = PointerToStruct fields'
    /\ fields !! n = Some (sf, v)
    /\ fields' !! n = Some (sf, v')
    /\ Tag_Lookup sf = Some tagValue
    /\ decodeTagFields (Split tagValue ",") = Ok vParams
    /\ ParamName e = Name vParams
    /\ match Code e with
       | VALIDATE_ERR_CODE_MISSING_REQ_PARAM =>
           Required vParams = true /\ inputData !! Name vParams = None
           /\ v' = v
       | VALIDATE_ERR_CODE_UNPARSABLE =>
           exists raw msg,
             inputData !! Name vParams = Some (Some raw)
             /\ json_Unmarshal raw v = (v', Some msg)
             /\ OriginalError e = Some (errDecode msg)
       | VALIDATE_ERR_CODE_TOO_LONG =>
           exists s x b,
             v' = VString s
             /\ Fields vParams !! TAG_FIELD_MAX_LEN = Some x
             /\ ParseUint x = Some b
             /\ to_int b < Z.of_nat (String.length s)
       | VALIDATE_ERR_CODE_TOO_SHORT =>
           exists s x b,
             v' = VString s
             /\ Fields vParams !! TAG_FIELD_MIN_LEN = Some x
             /\ ParseUint x = Some b
             /\ Z.of_nat (String.length s) < to_int b
       | _ => False
       end.
Proof.
  unfold Validate. intros Hrun.
  destruct (validateFields 0 inputData fields) as [fields' r] eqn:E.
  inversion Hrun; subst.
  destruct (validateFields_stop _ _ _ _ _ E)
    as [pre [pre' [sf [v [v' [post [-> [-> [Hpre Hstep]]]]]]]]];
    [discriminate|].
  simpl in Hstep.
  destruct (validateField_error _ _ _ _ _ _ Hstep)
    as [tagValue [vParams [Ht [Hd Hcase]]]].
  assert (Hlen : length pre' = length pre).
  { clear -Hpre. revert pre' Hpre. generalize 0%nat.
    induction pre as [|[sf fv] pre IH]; intros i pre' Hpre; simpl in Hpre.
    - by inversion Hpre.
    - destruct (validateField i inputData sf fv) as [fv' [[e|]|m|a]];
        try discriminate Hpre.
      destruct (validateFields (S i) inputData pre) as [rest' r'] eqn:E'.
      inversion Hpre; subst. simpl. f_equal. by eapply IH. }
  exists (length pre), (pre' ++ (sf, v') :: post)%list, sf, v, v',
    tagValue, vParams.
  split; [done|]. split; [by apply list_lookup_middle|].
  split; [by apply list_lookup_middle|].
  split; [done|split; [done|]].
  destruct Hcase as [[Hin [Hr [Hv ->]]]
                    |[[raw [msg [Hin [Hj ->]]]]
                     |[[s [x [b [Hv [Hk [Hp [Hlt ->]]]]]]]
                      |[s [x [b [Hv [Hk [Hp [Hlt ->]]]]]]]]]]; simpl.
  - done.
  - split; [done|]. by exists raw, msg.
  - split; [done|]. by exists s, x, b.
  - split; [done|]. by exists s, x, b.
Qed.



(** X8. A key that is present but cannot be decoded, for a field that is
    reached and has a well-formed tag: a nil [*json.RawMessage] makes the
    call panic with the field untouched; a value that [json.Unmarshal]
    rejects makes the call return [Unparsable] with that error, the field
    holding what [json.Unmarshal] left in it.  Neither depends on the
    constraints of the tag, and the later fields keep their values. *)
Theorem X8_undecodable_value inputData
    (pre pre' post : list (StructField * Value float64))
    structField fValue tagValue vParams :
  validateFields 0 inputData pre = (pre', Done None) ->
  Tag_Lookup structField = Some tagValue ->
  decodeTagFields (Split tagValue ",") = Ok vParams ->
  (inputData !! Name vParams = Some None ->
   Validate inputData
     (PointerToStruct (pre ++ (structField, fValue) :: post)%list)
   = (PointerToStruct (pre' ++ (structField, fValue) :: post)%list,
      Panic NilDereference))
  /\ (forall raw fValue' msg,
        inputData !! Name vParams = Some (Some raw) ->
        json_Unmarshal raw fValue = (fValue', Some msg) ->
        Validate inputData
          (PointerToStruct (pre ++ (structField, fValue) :: post)%list)
        = (PointerToStruct (pre' ++ (structField, fValue') :: post)%list,
           Done (Some {| ParamName := Name vParams;
                         Code := VALIDATE_ERR_CODE_UNPARSABLE;
                         OriginalError := Some (errDecode msg) |}))).
Proof.
  intros Hpre Ht Hd.
  rewrite (Validate_reached _ _ _ _ _ _ Hpre).
  rewrite (validateField_decoded _ _ _ _ _ Ht), Hd.
  split.
  - intros Hin. by rewrite Hin.
  - intros raw fValue' msg Hin Hj. by rewrite Hin, Hj.
Qed.

End Errors.

(** ** The engine: defaults and lengths *)

Section Defaults.
Context {RT : Runtime}.

Lemma setDefaultValue_not_applicable (field : Value float64) rawValue :
  coercedDefault field rawValue = None ->
  exists m,
    setDefaultValue field rawValue = Panicked m
    /\ ((m = UnsupportedKind (Kind_of field)
         /\ Kind_of field ∉ [reflect.Int; reflect.Uint; reflect.Float32;
                              reflect.Float64; reflect.String])
        \/ (m = DefaultUnparsable (Kind_of field) rawValue
            /\ Kind_of field ∈ [reflect.Int; reflect.Uint; reflect.Float32;
                                 reflect.Float64])).
Proof.
  unfold coercedDefault, setDefaultValue.
  destruct field as [[]|[]|[]| |[]]; simpl;
    try (intros _; eexists; split; [reflexivity|left; split; [done|]];
         set_solver);
    try (destruct (ParseInt rawValue); simpl; [discriminate|];
         intros _; eexists; split; [reflexivity|right; split; [done|]];
         set_solver);
    try (destruct (ParseUint rawValue); simpl; [discriminate|];
         intros _; eexists; split; [reflexivity|right; split; [done|]];
         set_solver);
    try (destruct (ParseFloat rawValue _); simpl; [discriminate|];
         intros _; eexists; split; [reflexivity|right; split; [done|]];
         set_solver).
  discriminate.
Qed.

(** X9. A default that cannot be applied, for a field that is reached,
    optional and absent from the input: the call panics and the field and
    all later fields keep their values.  The panic is "Unsupported kind"
    for every kind other than [int], [uint], [float32], [float64] and
    [string] (so also for [int64] or [bool]), and "Unable to parse
    default" when the text does not read as a value of the field's kind. *)
Theorem X9_default_not_applicable inputData
    (pre pre' post : list (StructField * Value float64))
    structField fValue tagValue vParams rawValue :
  validateFields 0 inputData pre = (pre', Done None) ->
  Tag_Lookup structField = Some tagValue ->
  decodeTagFields (Split tagValue ",") = Ok vParams ->
  Required vParams = false ->
  Fields vParams !! TAG_FIELD_DEFAULT = Some rawValue ->
  inputData !! Name vParams = None ->
  coercedDefault fValue rawValue = None ->
  exists m,
    Validate inputData
      (PointerToStruct (pre ++ (structField, fValue) :: post)%list)
    = (PointerToStruct (pre' ++ (structField, fValue) :: post)%list, Panic m)
    /\ ((m = UnsupportedKind (Kind_of fValue)
         /\ Kind_of fValue ∉ [reflect.Int; reflect.Uint; reflect.Float32;
                               reflect.Float64; reflect.String])
        \/ (m = DefaultUnparsable (Kind_of fValue) rawValue
            /\ Kind_of fValue ∈ [reflect.Int; reflect.Uint; reflect.Float32;
                                  reflect.Float64])).
Proof.
  intros Hpre Ht Hd Hr Hf Hin Hc.
  destruct (setDefaultValue_not_applicable _ _ Hc) as [m [Hs Hm]].
  exists m. split; [|done].
  rewrite (Validate_reached _ _ _ _ _ _ Hpre).
  rewrite (validateField_decoded _ _ _ _ _ Ht).
  by rewrite Hd, Hin, Hr, Hf, Hs.
Qed.

(** X10. Length constraints judge the value the field ends up with,
    decoded from the input or taken from the default, for a bound below
    [2^63] when the other constraints of the tag let the value pass: the
    call returns [TooLong] ([TooShort]) exactly when the length is above
    [maxLen] (below [minLen]), a length equal to the bound passes, and on
    an error the later fields keep their values.  So a default longer
    than the tag's own [maxLen] fails every call that omits the key. *)
Theorem X10_length_of_decoded_or_default inputData
    (pre pre' post : list (StructField * Value float64))
    structField fValue tagValue vParams s k tagRawVal reqLen :
  validateFields 0 inputData pre = (pre', Done None) ->
  Tag_Lookup structField = Some tagValue ->
  decodeTagFields (Split tagValue ",") = Ok vParams ->
  (exists raw, inputData !! Name vParams = Some (Some raw)
               /\ json_Unmarshal raw fValue = (VString s, None))
  \/ (inputData !! Name vParams = None /\ Required vParams = false
      /\ Fields vParams !! TAG_FIELD_DEFAULT = Some s
      /\ Kind_of fValue = reflect.String) ->
  Fields vParams !! k = Some tagRawVal ->
  k = TAG_FIELD_MAX_LEN \/ k = TAG_FIELD_MIN_LEN ->
  ParseUint tagRawVal = Some reqLen ->
  reqLen < cutoffInt64 ->
  (forall k' v', Fields vParams !! k' = Some v' -> k' <> k ->
     evalTagField structField vParams (VString s) k' v' = Ok None) ->
  Validate inputData
    (PointerToStruct (pre ++ (structField, fValue) :: post)%list)
  = if bool_decide (k = TAG_FIELD_MAX_LEN)
       && (reqLen <? Z.of_nat (String.length s)) then
      (PointerToStruct (pre' ++ (structField, VString s) :: post)%list,
       Done (Some {| ParamName := Name vParams;
                     Code := VALIDATE_ERR_CODE_TOO_LONG;
                     OriginalError :=
                       Some (Errorf_too_long (Name vParams) reqLen) |}))
    else if bool_decide (k = TAG_FIELD_MIN_LEN)
            && (Z.of_nat (String.length s) <? reqLen) then
      (PointerToStruct (pre' ++ (structField, VString s) :: post)%list,
       Done (Some {| ParamName := Name vParams;
                     Code := VALIDATE_ERR_CODE_TOO_SHORT;
                     OriginalError :=
                       Some (Errorf_too_short (Name vParams) reqLen) |}))
    else
      let '(post', r) := validateFields (S (length pre)) inputData post in
      (PointerToStruct (pre' ++ (structField, VString s) :: post')%list, r).
Proof.
  intros Hpre Ht Hd Hcase Hk Hkind Hp Hlt Hothers.
  assert (Hstep : validateField (length pre) inputData structField fValue
                  = (VString s,
                     evalTagFields structField vParams (VString s)
                       (rangeOrder (length pre) (Fields vParams)))).
  { destruct Hcase as [[raw [Hin Hj]]|[Hin [Hr [Hdef Hstr]]]].
    - by eapply validateField_present.
    - eapply validateField_default; try done.
      by destruct fValue as [[]|[]|[]| |[]]. }
  rewrite (Validate_reached _ _ _ _ _ _ Hpre), Hstep.
  rewrite (evalTagFields_only _ _ _ _ _ _ _ Hk Hothers).
  destruct (checkLen_in_range structField vParams s k tagRawVal reqLen Hp Hlt)
    as [Hmax Hmin].
  destruct Hkind as [->| ->].
  - change (evalTagField structField vParams (VString s)
              TAG_FIELD_MAX_LEN tagRawVal)
      with (checkLen structField vParams (VString s)
              TAG_FIELD_MAX_LEN tagRawVal).
    rewrite (Hmax eq_refl). rewrite bool_decide_eq_true_2 by done. simpl.
    destruct (reqLen <? Z.of_nat (String.length s)); [done|].
    by destruct (validateFields (S (length pre)) inputData post).
  - change (evalTagField structField vParams (VString s)
              TAG_FIELD_MIN_LEN tagRawVal)
      with (checkLen structField vParams (VString s)
              TAG_FIELD_MIN_LEN tagRawVal).
    rewrite (Hmin eq_refl). rewrite bool_decide_eq_false_2 by done.
    rewrite bool_decide_eq_true_2 by done. simpl.
    destruct (Z.of_nat (String.length s) <? reqLen); [done|].
    by destruct (validateFields (S (length pre)) inputData post).
Qed.


End Defaults.

(** ** The method [Error] on the errors of [Validate] *)

Section Messages.
Context {RT : Runtime}.
Variable FormatFloat : float64 -> string.


End Messages.

(** ** The earlier revision *)

Section Earlier.
Context {RT : Runtime}.

Lemma Rev1_validateField_eq i inputData structField
    (fValue : Value float64) tagValue :
  Tag_Lookup structField = Some tagValue ->
  Rev1.validateField i inputData structField fValue =
    match decodeTagFields (Split tagValue ",") with
    | Panicked m => (fValue, Panic m)
    | Ok vParams =>
        match inputData !! Name vParams with
        | None =>
            if Required vParams then
              (fValue,
               Done (Some {| ParamName := Name vParams;
                             Code := VALIDATE_ERR_CODE_MISSING_REQ_PARAM;
                             OriginalError := None |}))
            else (fValue, Done None)
        | Some None => (fValue, Panic NilDereference)
        | Some (Some val) =>
            match (match fValue with
                   | VOther KPtr _ => (fValue, json_Unmarshal_ptr val fValue)
                   | _ => json_Unmarshal val fValue
                   end) with
            | (fValue', Some msg) =>
                (fValue',
                 Done (Some {| ParamName := Name vParams;
                               Code := VALIDATE_ERR_CODE_UNPARSABLE;
                               OriginalError := Some (errDecode msg) |}))
            | (fValue', None) =>
                (fValue', Rev1.evalTagFields (rangeOrder i (Fields vParams)))
            end
        end
    end.
Proof.
  intros Ht. unfold Rev1.validateField. rewrite Ht.
  case_decide as Hlen.
  - exfalso. destruct (Split tagValue ",") eqn:E; [|done].
    by apply Split_not_nil in E.
  - destruct (decodeTagFields _) as [vParams|m]; [|done].
    by destruct (inputData !! Name vParams) as [[val|]|].
Qed.

Lemma rangeOrder_empty i : rangeOrder i ∅ = [].
Proof.
  apply Permutation_nil_r. rewrite rangeOrder_perm.
  by rewrite map_to_list_empty.
Qed.

Lemma Rev1_evalTagFields_exit i (m : gmap string string) :
  (m = ∅ /\ Rev1.evalTagFields (rangeOrder i m) = Done None)
  \/ (exists k, is_Some (m !! k)
                /\ Rev1.evalTagFields (rangeOrder i m)
                   = Panic (UnknownTagField k)).
Proof.
  destruct (rangeOrder i m) as [|[k x] rest] eqn:E.
  - left. split; [|done]. apply map_to_list_empty_iff.
    apply Permutation_nil_r. by rewrite <- rangeOrder_perm, E.
  - right. exists k. split; [|done]. exists x.
    apply (elem_of_rangeOrder i). rewrite E. by left.
Qed.

Lemma Rev1_validateFields_stop inputData
    (fields : list (StructField * Value float64)) :
  forall i fields' r,
  Rev1.validateFields i inputData fields = (fields', r) ->
  r <> Done None ->
  exists pre pre' sf v v' post,
    fields = (pre ++ (sf, v) :: post)%list
    /\ fields' = (pre' ++ (sf, v') :: post)%list
    /\ Rev1.validateFields i inputData pre = (pre', Done None)
    /\ Rev1.validateField (i + length pre) inputData sf v = (v', r).
Proof.
  induction fields as [|[sf fv] rest IH]; intros i fields' r Hrun Hr.
  - simpl in Hrun. inversion Hrun; subst. done.
  - simpl in Hrun.
    destruct (Rev1.validateField i inputData sf fv) as [fv' x] eqn:E.
    assert (Hhere : x <> Done None ->
              (fields', r) = ((sf, fv') :: rest, x) ->
              exists pre pre' sf0 v v' post,
                (sf, fv) :: rest = (pre ++ (sf0, v) :: post)%list
                /\ fields' = (pre' ++ (sf0, v') :: post)%list
                /\ Rev1.validateFields i inputData pre = (pre', Done None)
                /\ Rev1.validateField (i + length pre) inputData sf0 v
                   = (v', r)).
    { intros _ Heq. inversion Heq; subst.
      exists [], [], sf, fv, fv', rest. simpl.
      replace (i + 0)%nat with i by lia. done. }
    destruct x as [[e|]|m|a]; try (apply Hhere; [discriminate|by symmetry]).
    destruct (Rev1.validateFields (S i) inputData rest) as [rest' r'] eqn:E'.
    inversion Hrun; subst.
    destruct (IH _ _ _ E' Hr) as [pre [pre' [sf0 [v [v' [post H]]]]]].
    destruct H as [-> [-> [Hpre Hstep]]].
    exists ((sf, fv) :: pre), ((sf, fv') :: pre'), sf0, v, v', post.
    split; [done|split; [done|split]].
    + simpl. by rewrite E, Hpre.
    + simpl. by replace (i + S (length pre))%nat
               with (S i + length pre)%nat by lia.
Qed.

Lemma Rev1_validateFields_app inputData
    (pre : list (StructField * Value float64)) :
  forall i post,
  Rev1.validateFields i inputData (pre ++ post)%list =
    match Rev1.validateFields i inputData pre with
    | (pre', Done None) =>
        let '(post', r) :=
          Rev1.validateFields (i + length pre) inputData post in
        ((pre' ++ post')%list, r)
    | (pre', r) => ((pre' ++ post)%list, r)
    end.
Proof.
  induction pre as [|[sf fv] pre IH]; intros i post; simpl.
  - replace (i + 0)%nat with i by lia.
    by destruct (Rev1.validateFields i inputData post).
  - destruct (Rev1.validateField i inputData sf fv) as [fv' [[e|]|m|a]];
      try done.
    rewrite IH.
    destruct (Rev1.validateFields (S i) inputData pre) as [pre' [[e|]|m|a]];
      try done.
    replace (i + S (length pre))%nat with (S i + length pre)%nat by lia.
    by destruct (Rev1.validateFields (S i + length pre) inputData post).
Qed.

Section Text.
Variable FormatFloat : float64 -> string.

(** X13. The earlier revision returns two kinds of error only:
    [MissingRequired] without an original error, whose message [Error]
    gives is the empty string, and [Unparsable] wrapping the error of
    [json.Unmarshal], whose message it passes on. *)
Theorem X13_earlier_errors inputData
    (fields : list (StructField * Value float64)) out' e :
  Rev1.Validate inputData (PointerToStruct fields) = (out', Done (Some e)) ->
  (Code e = VALIDATE_ERR_CODE_MISSING_REQ_PARAM
   /\ OriginalError e = None
   /\ Rev1.Error FormatFloat e = "")
  \/ (Code e = VALIDATE_ERR_CODE_UNPARSABLE
      /\ exists msg, OriginalError e = Some (errDecode msg)
                     /\ Rev1.Error FormatFloat e = msg).
Proof.
  unfold Rev1.Validate. intros Hrun.
  destruct (Rev1.validateFields 0 inputData fields) as [fields' r] eqn:E.
  inversion Hrun; subst.
  destruct (Rev1_validateFields_stop _ _ _ _ _ E)
    as [pre [pre' [sf [v [v' [post [-> [-> [Hpre Hstep]]]]]]]]];
    [discriminate|].
  destruct (Tag_Lookup sf) as [tagValue|] eqn:Ht.
  - rewrite (Rev1_validateField_eq _ _ _ _ _ Ht) in Hstep.
    destruct (decodeTagFields (Split tagValue ",")) as [vParams|m];
      [|discriminate Hstep].
    destruct (inputData !! Name vParams) as [[raw|]|].
    + destruct (match v with
                | VOther KPtr _ => (v, json_Unmarshal_ptr raw v)
                | _ => json_Unmarshal raw v
                end) as [fv [msg|]].
      * inversion Hstep; subst. right. split; [done|]. by exists msg.
      * inversion Hstep as [[Hv Hrun']].
        destruct (Rev1_evalTagFields_exit (length pre) (Fields vParams))
          as [[_ H]|[k [_ H]]]; simpl in Hrun'; rewrite H in Hrun';
          discriminate Hrun'.
    + discriminate Hstep.
    + destruct (Required vParams); [|discriminate Hstep].
      inversion Hstep; subst. by left.
  - unfold Rev1.validateField in Hstep. rewrite Ht in Hstep.
    discriminate Hstep.
Qed.

End Text.

(** X14. In the earlier revision every clause other than [name] and
    [required] is an unknown tag field: for a field that is reached and
    whose key decodes, the call goes on to the next field when the tag
    has no such clause, and panics on the name of one of them when it has
    any ([min] and [default] included). *)
Theorem X14_earlier_constraints_are_fatal inputData
    (pre pre' post : list (StructField * Value float64))
    structField fValue fValue' tagValue vParams raw :
  Rev1.validateFields 0 inputData pre = (pre', Done None) ->
  Tag_Lookup structField = Some tagValue ->
  decodeTagFields (Split tagValue ",") = Ok vParams ->
  inputData !! Name vParams = Some (Some raw) ->
  match fValue with
  | VOther KPtr _ => (fValue, json_Unmarshal_ptr raw fValue)
  | _ => json_Unmarshal raw fValue
  end = (fValue', None) ->
  (Fields vParams = ∅
   /\ Rev1.Validate inputData
        (PointerToStruct (pre ++ (structField, fValue) :: post)%list)
      = let '(post', r) :=
          Rev1.validateFields (S (length pre)) inputData post in
        (PointerToStruct (pre' ++ (structField, fValue') :: post')%list, r))
  \/ (exists k,
        is_Some (Fields vParams !! k)
        /\ Rev1.Validate inputData
             (PointerToStruct (pre ++ (structField, fValue) :: post)%list)
           = (PointerToStruct (pre' ++ (structField, fValue') :: post)%list,
              Panic (UnknownTagField k))).
Proof.
  intros Hpre Ht Hd Hin Hj.
  unfold Rev1.Validate. rewrite Rev1_validateFields_app, Hpre. simpl.
  rewrite (Rev1_validateField_eq _ _ _ _ _ Ht), Hd, Hin, Hj.
  destruct (Rev1_evalTagFields_exit (length pre) (Fields vParams))
    as [[Hempty H]|[k [Hk H]]]; rewrite H.
  - left. split; [done|].
    by destruct (Rev1.validateFields (S (length pre)) inputData post).
  - right. by exists k.
Qed.

Lemma withoutRequiredText_Done_None (r : Exit float64) :
  withoutRequiredText r = Done None <-> r = Done None.
Proof.
  destruct r as [[e|]|m|a]; simpl; try done.
  destruct (Code e); split; discriminate.
Qed.

Lemma Rev1_validateField_agrees i inputData structField
    (fValue : Value float64) :
  (forall tagValue vParams,
     Tag_Lookup structField = Some tagValue ->
     decodeTagFields (Split tagValue ",") = Ok vParams ->
     Fields vParams = ∅ /\ Kind_of fValue <> reflect.Ptr) ->
  Rev1.validateField i inputData structField fValue
  = (fst (validateField i inputData structField fValue),
     withoutRequiredText (snd (validateField i inputData structField fValue))).
Proof.
  intros Hfree.
  destruct (Tag_Lookup structField) as [tagValue|] eqn:Ht.
  - rewrite (Rev1_validateField_eq _ _ _ _ _ Ht).
    rewrite (validateField_decoded _ _ _ _ _ Ht).
    destruct (decodeTagFields (Split tagValue ",")) as [vParams|m] eqn:Hd;
      [|done].
    destruct (Hfree _ _ eq_refl Hd) as [Hempty Hkind].
    destruct (inputData !! Name vParams) as [[raw|]|].
    + assert (Hsame : match fValue with
                      | VOther KPtr _ => (fValue, json_Unmarshal_ptr raw fValue)
                      | _ => json_Unmarshal raw fValue
                      end = json_Unmarshal raw fValue).
      { by destruct fValue as [| | | |[]]. }
      rewrite Hsame.
      destruct (json_Unmarshal raw fValue) as [fv [msg|]]; [done|].
      rewrite Hempty, rangeOrder_empty. done.
    + done.
    + destruct (Required vParams); [done|].
      by rewrite Hempty, lookup_empty.
  - unfold Rev1.validateField. rewrite Ht.
    by rewrite validateField_untagged.
Qed.

Lemma Rev1_validateFields_agrees inputData
    (fields : list (StructField * Value float64)) :
  (forall sf v tagValue vParams,
     (sf, v) ∈ fields ->
     Tag_Lookup sf = Some tagValue ->
     decodeTagFields (Split tagValue ",") = Ok vParams ->
     Fields vParams = ∅ /\ Kind_of v <> reflect.Ptr) ->
  forall i,
  Rev1.validateFields i inputData fields
  = (fst (validateFields i inputData fields),
     withoutRequiredText (snd (validateFields i inputData fields))).
Proof.
  induction fields as [|[sf fv] rest IH]; intros Hfree i; [done|].
  simpl.
  rewrite (Rev1_validateField_agrees i inputData sf fv).
  2:{ intros tagValue vParams Ht Hd.
      apply (Hfree sf fv tagValue vParams); [by left|done|done]. }
  destruct (validateField i inputData sf fv) as [fv' x]. simpl.
  assert (IH' := IH (fun sf' v' tagValue vParams Hin =>
                       Hfree sf' v' tagValue vParams
                         (list_elem_of_further _ _ _ Hin)) (S i)).
  destruct x as [[e|]|m|a]; simpl.
  - by destruct (Code e).
  - rewrite IH'.
    by destruct (validateFields (S i) inputData rest) as [rest' r].
  - done.
  - done.
Qed.

(** X15. How the two revisions relate: on a struct whose well-formed tags
    have no clause other than [name] and [required] and whose tagged
    fields are not pointers, the earlier revision leaves the same fields
    and ends the same way as the later one, except that its
    [MissingRequired] error carries no message. *)
Theorem X15_revisions_agree_without_constraints inputData
    (fields : list (StructField * Value float64)) :
  (forall sf v tagValue vParams,
     (sf, v) ∈ fields ->
     Tag_Lookup sf = Some tagValue ->
     decodeTagFields (Split tagValue ",") = Ok vParams ->
     Fields vParams = ∅ /\ Kind_of v <> reflect.Ptr) ->
  Rev1.Validate inputData (PointerToStruct fields)
  = (fst (Validate inputData (PointerToStruct fields)),
     withoutRequiredText (snd (Validate inputData (PointerToStruct fields)))).
Proof.
  intros Hfree. unfold Rev1.Validate, Validate.
  rewrite (Rev1_validateFields_agrees _ _ Hfree).
  by destruct (validateFields 0 inputData fields).
Qed.

End Earlier.

(** ** Closed instances of the properties above *)

Lemma X4_stops_at_first_failure_witness :
  exists pre pre' sf v v' post,
    [({| FName := "Count"; Tag_Lookup := Some "name=count,required" |},
      VInt KInt 0);
     ({| FName := "Bio"; Tag_Lookup := Some "name=bio,default=x" |},
      VString "")]
    = (pre ++ (sf, v) :: post)%list
    /\ PointerToStruct
         [({| FName := "Count"; Tag_Lookup := Some "name=count,required" |},
           VInt KInt 0);
          ({| FName := "Bio"; Tag_Lookup := Some "name=bio,default=x" |},
           VString "")]
       = PointerToStruct (pre' ++ (sf, v') :: post)%list
    /\ @validateFields scalarRuntime 0 ∅ pre = (pre', Done None)
    /\ @validateField scalarRuntime (length pre) ∅ sf v
       = (v', Done (Some {| ParamName := "count";
                            Code := VALIDATE_ERR_CODE_MISSING_REQ_PARAM;
                            OriginalError :=
                              Some (Errorf_required "count") |})).
Proof.
  apply (X4_stops_at_first_failure (RT := scalarRuntime) ∅).
  - vm_compute. reflexivity.
  - discriminate.
Defined.

Lemma X5_success_guarantees_witness :
  exists vParams fValue',
    decodeTagFields (Split "name=bio,required,maxLen=10" ",") = Ok vParams
    /\ [({| FName := "Bio";
            Tag_Lookup := Some "name=bio,required,maxLen=10" |},
         @VString (@float64 scalarRuntime) "hi")] !! 0%nat
       = Some ({| FName := "Bio";
                  Tag_Lookup := Some "name=bio,required,maxLen=10" |},
               fValue')
    /\ (Required vParams = true ->
        exists raw,
          ({[ "bio" := Some (quoted "hi") ]} : gmap string (option string))
            !! Name vParams = Some (Some raw))
    /\ (is_Some (({[ "bio" := Some (quoted "hi") ]}
                  : gmap string (option string)) !! Name vParams)
        \/ is_Some (Fields vParams !! TAG_FIELD_DEFAULT) ->
        (forall k x, Fields vParams !! k = Some x ->
           k ∈ [TAG_FIELD_MIN; TAG_FIELD_MAX; TAG_FIELD_MIN_LEN;
                TAG_FIELD_MAX_LEN; TAG_FIELD_DEFAULT; TAG_FIELD_ONE_OF])
        /\ (forall x, Fields vParams !! TAG_FIELD_MAX_LEN = Some x ->
              exists s b, fValue' = VString s /\ ParseUint x = Some b
                          /\ Z.of_nat (String.length s) <= to_int b)
        /\ (forall x, Fields vParams !! TAG_FIELD_MIN_LEN = Some x ->
              exists s b, fValue' = VString s /\ ParseUint x = Some b
                          /\ to_int b <= Z.of_nat (String.length s))).
Proof.
  apply (X5_success_guarantees (RT := scalarRuntime)
           {[ "bio" := Some (quoted "hi") ]}
           [({| FName := "Bio";
                Tag_Lookup := Some "name=bio,required,maxLen=10" |},
             VString "")]
           [({| FName := "Bio";
                Tag_Lookup := Some "name=bio,required,maxLen=10" |},
             VString "hi")]
           0
           {| FName := "Bio";
              Tag_Lookup := Some "name=bio,required,maxLen=10" |}
           (VString "")).
  - vm_compute. reflexivity.
  - reflexivity.
  - reflexivity.
Defined.

Lemma X6_errors_are_justified_witness :
  exists n fields' sf v v' tagValue vParams,
    PointerToStruct
      [({| FName := "Count"; Tag_Lookup := Some "name=count" |},
        @VInt (@float64 scalarRuntime) KInt 0)]
    = PointerToStruct fields'
    /\ [({| FName := "Count"; Tag_Lookup := Some "name=count" |},
         VInt KInt 0)] !! n = Some (sf, v)
    /\ fields' !! n = Some (sf, v')
    /\ Tag_Lookup sf = Some tagValue
    /\ decodeTagFields (Split tagValue ",") = Ok vParams
    /\ "count" = Name vParams
    /\ exists raw msg,
         ({[ "count" := Some (quoted "oops") ]}
          : gmap string (option string)) !! Name vParams = Some (Some raw)
         /\ @json_Unmarshal scalarRuntime raw v = (v', Some msg)
         /\ Some (@errDecode (@float64 scalarRuntime)
                    "json: cannot unmarshal into an integer")
            = Some (errDecode msg).
Proof.
  apply (X6_errors_are_justified (RT := scalarRuntime)
           {[ "count" := Some (quoted "oops") ]}
           [({| FName := "Count"; Tag_Lookup := Some "name=count" |},
             VInt KInt 0)]
           (PointerToStruct
              [({| FName := "Count"; Tag_Lookup := Some "name=count" |},
                VInt KInt 0)])
           {| ParamName := "count";
              Code := VALIDATE_ERR_CODE_UNPARSABLE;
              OriginalError :=
                Some (errDecode "json: cannot unmarshal into an integer") |}).
  vm_compute. reflexivity.
Defined.


Lemma X8_undecodable_value_witness :
  @Validate scalarRuntime {[ "count" := Some (quoted "oops") ]}
    (PointerToStruct
       [({| FName := "Count"; Tag_Lookup := Some "name=count,bogus=1" |},
         VInt KInt 7)])
  = (PointerToStruct
       [({| FName := "Count"; Tag_Lookup := Some "name=count,bogus=1" |},
         VInt KInt 7)],
     Done (Some {| ParamName := "count";
                   Code := VALIDATE_ERR_CODE_UNPARSABLE;
                   OriginalError :=
                     Some (errDecode
                             "json: cannot unmarshal into an integer") |})).
Proof.
  refine (proj2
    (X8_undecodable_value (RT := scalarRuntime)
       {[ "count" := Some (quoted "oops") ]} [] [] []
       {| FName := "Count"; Tag_Lookup := Some "name=count,bogus=1" |}
       (VInt KInt 7) "name=count,bogus=1"
       {| Name := "count"; Required := false;
          Fields := {[ "bogus" := "1" ]} |} _ _ _)
    (quoted "oops") (VInt KInt 7)
    "json: cannot unmarshal into an integer" _ _).
  - reflexivity.
  - reflexivity.
  - vm_compute. reflexivity.
  - vm_compute. reflexivity.
  - vm_compute. reflexivity.
Defined.

Lemma X9_default_not_applicable_witness :
  exists m,
    @Validate scalarRuntime ∅
      (PointerToStruct
         [({| FName := "Count"; Tag_Lookup := Some "name=count,default=5" |},
           VInt KInt64 0)])
    = (PointerToStruct
         [({| FName := "Count"; Tag_Lookup := Some "name=count,default=5" |},
           VInt KInt64 0)],
       Panic m)
    /\ ((m = UnsupportedKind reflect.Int64
         /\ reflect.Int64 ∉ [reflect.Int; reflect.Uint; reflect.Float32;
                             reflect.Float64; reflect.String])
        \/ (m = DefaultUnparsable reflect.Int64 "5"
            /\ reflect.Int64 ∈ [reflect.Int; reflect.Uint; reflect.Float32;
                                reflect.Float64])).
Proof.
  apply (X9_default_not_applicable (RT := scalarRuntime) ∅ [] [] []
           {| FName := "Count"; Tag_Lookup := Some "name=count,default=5" |}
           (VInt KInt64 0) "name=count,default=5"
           {| Name := "count"; Required := false;
              Fields := {[ "default" := "5" ]} |} "5").
  - reflexivity.
  - reflexivity.
  - vm_compute. reflexivity.
  - reflexivity.
  - vm_compute. reflexivity.
  - reflexivity.
  - reflexivity.
Defined.

Lemma X10_length_of_decoded_or_default_witness :
  @Validate scalarRuntime ∅
    (PointerToStruct
       [({| FName := "Bio";
            Tag_Lookup := Some "name=bio,default=hello,maxLen=3" |},
         VString "")])
  = (PointerToStruct
       [({| FName := "Bio";
            Tag_Lookup := Some "name=bio,default=hello,maxLen=3" |},
         VString "hello")],
     Done (Some {| ParamName := "bio";
                   Code := VALIDATE_ERR_CODE_TOO_LONG;
                   OriginalError := Some (Errorf_too_long "bio" 3) |})).
Proof.
  apply (X10_length_of_decoded_or_default (RT := scalarRuntime) ∅ [] [] []
           {| FName := "Bio";
              Tag_Lookup := Some "name=bio,default=hello,maxLen=3" |}
           (VString "") "name=bio,default=hello,maxLen=3"
           {| Name := "bio"; Required := false;
              Fields := <[ "maxLen" := "3" ]> {[ "default" := "hello" ]} |}
           "hello" "maxLen" "3" 3).
  - reflexivity.
  - reflexivity.
  - vm_compute. reflexivity.
  - right. split; [reflexivity|]. split; [reflexivity|].
    split; [vm_compute; reflexivity|reflexivity].
  - vm_compute. reflexivity.
  - left. reflexivity.
  - reflexivity.
  - reflexivity.
  - intros k' v' H Hne. simpl in H.
    apply lookup_insert_Some in H as [[<- <-]|[_ H]]; [by destruct Hne|].
    apply lookup_singleton_Some in H as [<- <-]. reflexivity.
Defined.



Lemma X13_earlier_errors_witness :
  (VALIDATE_ERR_CODE_MISSING_REQ_PARAM = VALIDATE_ERR_CODE_MISSING_REQ_PARAM
   /\ @None (error (@float64 scalarRuntime)) = None
   /\ "" = "")
  \/ (VALIDATE_ERR_CODE_MISSING_REQ_PARAM = VALIDATE_ERR_CODE_UNPARSABLE
      /\ exists msg, @None (error (@float64 scalarRuntime))
                     = Some (errDecode msg)
                     /\ "" = msg).
Proof.
  apply (X13_earlier_errors (RT := scalarRuntime)
           (fun f : Empty_set => match f with end) ∅
           [({| FName := "Count"; Tag_Lookup := Some "name=count,required" |},
             VInt KInt 0)]
           (PointerToStruct
              [({| FName := "Count";
                   Tag_Lookup := Some "name=count,required" |},
                VInt KInt 0)])
           {| ParamName := "count";
              Code := VALIDATE_ERR_CODE_MISSING_REQ_PARAM;
              OriginalError := None |}).
  vm_compute. reflexivity.
Defined.

Lemma X14_earlier_constraints_are_fatal_witness :
  (({[ "min" := "0" ]} : gmap string string) = ∅
   /\ @Rev1.Validate scalarRuntime {[ "a" := Some "1" ]}
        (PointerToStruct
           [({| FName := "A"; Tag_Lookup := Some "name=a,min=0" |},
             VInt KInt 7)])
      = (PointerToStruct
           [({| FName := "A"; Tag_Lookup := Some "name=a,min=0" |},
             VInt KInt 1)],
         Done None))
  \/ (exists k,
        is_Some (({[ "min" := "0" ]} : gmap string string) !! k)
        /\ @Rev1.Validate scalarRuntime {[ "a" := Some "1" ]}
             (PointerToStruct
                [({| FName := "A"; Tag_Lookup := Some "name=a,min=0" |},
                  VInt KInt 7)])
           = (PointerToStruct
                [({| FName := "A"; Tag_Lookup := Some "name=a,min=0" |},
                  VInt KInt 1)],
              Panic (UnknownTagField k))).
Proof.
  refine (X14_earlier_constraints_are_fatal (RT := scalarRuntime)
            {[ "a" := Some "1" ]} [] [] []
            {| FName := "A"; Tag_Lookup := Some "name=a,min=0" |}
            (VInt KInt 7) (VInt KInt 1) "name=a,min=0"
            {| Name := "a"; Required := false; Fields := {[ "min" := "0" ]} |}
            "1" _ _ _ _ _).
  - reflexivity.
  - reflexivity.
  - vm_compute. reflexivity.
  - vm_compute. reflexivity.
  - vm_compute. reflexivity.
Defined.

Lemma X15_revisions_agree_without_constraints_witness :
  @Rev1.Validate scalarRuntime ∅
    (PointerToStruct
       [({| FName := "Count"; Tag_Lookup := Some "name=count,required" |},
         VInt KInt 0)])
  = (fst (@Validate scalarRuntime ∅
            (PointerToStruct
               [({| FName := "Count";
                    Tag_Lookup := Some "name=count,required" |},
                 VInt KInt 0)])),
     withoutRequiredText
       (snd (@Validate scalarRuntime ∅
               (PointerToStruct
                  [({| FName := "Count";
                       Tag_Lookup := Some "name=count,required" |},
                    VInt KInt 0)])))).
Proof.
  apply (X15_revisions_agree_without_constraints (RT := scalarRuntime)).
  intros sf v tagValue vParams Hin Ht Hd.
  apply list_elem_of_singleton in Hin. inversion Hin; subst.
  simpl in Ht. inversion Ht; subst.
  vm_compute in Hd. inversion Hd; subst.
  split; [reflexivity|discriminate].
Defined.

(** ** Running [Validate] again *)

Section Again.
Context {RT : Runtime}.





(** X17. Nothing is rolled back: for a field that is reached and whose
    key decodes, the struct holds the decoded value after the call, also
    when a constraint of the tag or a later field then makes the call
    return an error or panic; the fields before it are as the passing run
    left them. *)
Theorem X17_decoded_value_is_kept inputData
    (pre pre' post : list (StructField * Value float64))
    structField fValue fValue' tagValue vParams raw :
  validateFields 0 inputData pre = (pre', Done None) ->
  Tag_Lookup structField = Some tagValue ->
  decodeTagFields (Split tagValue ",") = Ok vParams ->
  inputData !! Name vParams = Some (Some raw) ->
  json_Unmarshal raw fValue = (fValue', None) ->
  exists post' r,
    Validate inputData
      (PointerToStruct (pre ++ (structField, fValue) :: post)%list)
    = (PointerToStruct (pre' ++ (structField, fValue') :: post')%list, r)
    /\ length post' = length post.
Proof.
  intros Hpre Ht Hd Hin Hj.
  rewrite (Validate_reached _ _ _ _ _ _ Hpre).
  rewrite (validateField_present _ _ _ _ _ _ _ _ Ht Hd Hin Hj).
  destruct (evalTagFields structField vParams fValue'
              (rangeOrder (length pre) (Fields vParams)))
    as [[e|]|m|a]; try (eexists _, _; split; [reflexivity|done]).
  destruct (validateFields (S (length pre)) inputData post)
    as [post' r] eqn:E.
  exists post', r. split; [done|].
  clear -E. revert post' r E. generalize (S (length pre)).
  induction post as [|[sf fv] post IH]; intros i post' r E; simpl in E.
  - by inversion E.
  - destruct (validateField i inputData sf fv) as [fv' [[e|]|m|a]];
      try (by inversion E).
    destruct (validateFields (S i) inputData post) as [rest' r'] eqn:E'.
    inversion E; subst. simpl. f_equal. by eapply IH.
Qed.

End Again.


Lemma X17_decoded_value_is_kept_witness :
  exists (post' : list (StructField * Value (@float64 scalarRuntime))) r,
    @Validate scalarRuntime {[ "bio" := Some (quoted "hello") ]}
      (PointerToStruct
         [({| FName := "Bio"; Tag_Lookup := Some "name=bio,maxLen=3" |},
           VString "")])
    = (PointerToStruct
         (({| FName := "Bio"; Tag_Lookup := Some "name=bio,maxLen=3" |},
           VString "hello") :: post'),
       r)
    /\ length post' = 0%nat.
Proof.
  refine (X17_decoded_value_is_kept (RT := scalarRuntime)
            {[ "bio" := Some (quoted "hello") ]} [] [] []
            {| FName := "Bio"; Tag_Lookup := Some "name=bio,maxLen=3" |}
            (VString "") (VString "hello") "name=bio,maxLen=3"
            {| Name := "bio"; Required := false;
               Fields := {[ "maxLen" := "3" ]} |}
            (quoted "hello") _ _ _ _ _).
  - reflexivity.
  - reflexivity.
  - vm_compute. reflexivity.
  - vm_compute. reflexivity.
  - vm_compute. reflexivity.
Defined.
